(** * The wormhole facades of [wormhole/wormhole.py]

    A shallow embedding of the two facade classes [_DelegatedWormhole] and
    [_DeferredWormhole] and of the factory [create], followed by the
    properties the specification states about them.

    Conventions of the embedding.
    - Python objects that travel through the facade untouched are values of
      [pyval]; [truthy] is Python's truth test and [is_Exception] is
      [isinstance(v, Exception)].
    - A Twisted [Deferred] is a cell of a heap [list dstate], named by its
      index.  A cell is [Pending] or [Fired] with its outcome; every firing
      is also appended to a trace, so that the order of resolutions can be
      stated.  Callback chains hung on a Deferred by the application are not
      part of the facade and are not modelled.
    - The Boss (the session engine) is outside this file: the facade only
      sends it calls, which are recorded, in order, in [boss_calls].
    - Methods are computations in the monad [M]: they take the world, return
      a value or raise, and leave the world as mutated so far. *)

From Stdlib Require Import ZArith List String Ascii Bool Lia.
From Stdlib.Strings Require Import Byte.
From stdpp Require Import base option list strings gmap.
Import ListNotations.
Local Open Scope string_scope.
Local Open Scope list_scope.

(** ** Python values *)

Abbreviation bytes := (list byte).

#[local] Set Warnings "-register-all,-clear-no-such-hyp".

Inductive pyval : Type :=
| PyNone
| PyBool (b : bool)
| PyInt (n : Z)
| PyStr (s : string)
| PyBytes (b : bytes)
| PyDict (kv : list (string * pyval))
| PyObj (cls : string) (truth : bool)
    (* any other object; [truth] is what [bool()] makes of it: its class's
       [__bool__] or [__len__], true when it has neither *)
| PyExc (cls : string) (args : list pyval) (truth : bool)
    (* an Exception instance, with its truth value likewise *)
| PyFailure (value : pyval).                   (* twisted.python.failure.Failure *)

(** Python's truth value of an object ([if x:], [not x], [x or y]). *)
Definition truthy (v : pyval) : bool :=
  match v with
  | PyNone => false
  | PyBool b => b
  | PyInt n => negb (n =? 0)%Z
  | PyStr s => negb (String.eqb s "")
  | PyBytes b => match b with [] => false | _ => true end
  | PyDict kv => match kv with [] => false | _ => true end
  | PyObj _ truth => truth
  | PyExc _ _ truth => truth
  | PyFailure _ => true
  end.

(** [isinstance(v, Exception)]; a [Failure] derives from [BaseException]
    only. *)
Definition is_Exception (v : pyval) : bool :=
  match v with PyExc _ _ _ => true | _ => false end.

(** [isinstance(v, type(""))] under [unicode_literals]. *)
Definition is_text (v : pyval) : bool :=
  match v with PyStr _ => true | _ => false end.

(** [x is not None] *)
Definition is_not_None (v : pyval) : bool :=
  match v with PyNone => false | _ => true end.

Definition py_of_bytes (o : option bytes) : pyval :=
  match o with Some b => PyBytes b | None => PyNone end.

(** The exceptions the facade raises or meets; none of their classes
    defines [__bool__] or [__len__]. *)
Definition NoKeyError : pyval := PyExc "NoKeyError" [] true.
Definition WormholeClosed (result : pyval) : pyval := PyExc "WormholeClosed" [result] true.
Definition TypeError (v : pyval) : pyval := PyExc "TypeError" [v] true.
Definition AlreadyCalledError : pyval := PyExc "AlreadyCalledError" [] true.
Definition AttributeError (name : string) : pyval := PyExc "AttributeError" [PyStr name] true.

(** [type(v)], as the name of the class. *)
Definition type_of (v : pyval) : pyval :=
  PyStr match v with
        | PyNone => "NoneType" | PyBool _ => "bool" | PyInt _ => "int"
        | PyStr _ => "str" | PyBytes _ => "bytes" | PyDict _ => "dict"
        | PyObj cls _ => cls | PyExc cls _ _ => cls | PyFailure _ => "Failure"
        end.

(** ** Results and the Boss *)

Inductive res (A : Type) : Type :=
| Ok (a : A)
| Raise (e : pyval).
Arguments Ok {A} a.
Arguments Raise {A} e.

(** The calls a facade forwards to its Boss. *)
Inductive boss_call : Type :=
| B_allocate_code (code_length : Z)
| B_input_code
| B_set_code (code : string)
| B_send (plaintext : bytes)
| B_close
| B_set_trace (client_name which : string)
| B_start.

(** The welcome handler given to the Boss: the caller's, or the bound method
    [_WelcomeHandler(relay_url).handle_welcome]. *)
Inductive welcome : Type :=
| handle_welcome (relay_url : string)
| caller_welcome (h : pyval).

(** The Boss as the facade sees it: what it was built from and the calls it
    has received, oldest first.  (Its first argument, the facade itself, is
    the back reference through which the events below arrive.) *)
Record Boss : Type := mkBoss {
  boss_side : string;
  boss_relay_url : string;
  boss_appid : string;
  boss_versions : gmap string pyval;
  boss_welcome_handler : welcome;
  boss_reactor : pyval;
  boss_journal : pyval;
  boss_tor_manager : pyval;
  boss_timing : pyval;
  boss_calls : list boss_call
}.

Definition boss_receive (c : boss_call) (b : Boss) : Boss :=
  mkBoss (boss_side b) (boss_relay_url b) (boss_appid b) (boss_versions b)
    (boss_welcome_handler b) (boss_reactor b) (boss_journal b)
    (boss_tor_manager b) (boss_timing b) (boss_calls b ++ [c]).

(** What the facade imports from modules of the package that are not part
    of this file: [util.to_bytes], [_key.derive_key], and of [_boss.Boss]
    what its [input_code()] returns, the Boss being as it is when called. *)
Record Imports : Type := mkImports {
  to_bytes : string -> bytes;
  key_derive_key : bytes -> bytes -> Z -> res pyval;
  Boss_input_code : Boss -> pyval
}.

(** ** Deferreds *)

Inductive outcome : Type :=
| Succeeded (v : pyval)
| Failed (exc : pyval).      (* the exception carried by the Failure *)

Inductive dstate : Type :=
| Pending
| Fired (o : outcome).

(** [Deferred.callback(v)]: a [Failure] passed as a result puts the Deferred
    on its error path. *)
Definition callback_outcome (v : pyval) : outcome :=
  match v with PyFailure e => Failed e | _ => Succeeded v end.

(** [Deferred.errback(x)]: anything that is not a [Failure] is wrapped in
    one. *)
Definition errback_outcome (x : pyval) : outcome :=
  match x with PyFailure e => Failed e | _ => Failed x end.

Module Deferred.

(** ** The facade that hands out Deferreds *)

Record DeferredWormhole : Type := mkDeferredWormhole {
  _boss : option Boss;
  _code : option string;
  _code_observers : list nat;
  _key : option bytes;
  _key_observers : list nat;
  _verifier : option bytes;
  _verifier_observers : list nat;
  _versions : option (list (string * pyval));
  _version_observers : list nat;
  _received_data : list bytes;
  _received_observers : list nat;
  _observer_result : pyval;
  _closed_result : pyval;
  _closed_observers : list nat
}.

(** Attribute assignment, one function per attribute. *)
Definition upd_boss v (s : DeferredWormhole) : DeferredWormhole :=
  mkDeferredWormhole v (_code s) (_code_observers s) (_key s)
    (_key_observers s) (_verifier s) (_verifier_observers s) (_versions s)
    (_version_observers s) (_received_data s) (_received_observers s)
    (_observer_result s) (_closed_result s) (_closed_observers s).
Definition upd_code v (s : DeferredWormhole) : DeferredWormhole :=
  mkDeferredWormhole (_boss s) v (_code_observers s) (_key s)
    (_key_observers s) (_verifier s) (_verifier_observers s) (_versions s)
    (_version_observers s) (_received_data s) (_received_observers s)
    (_observer_result s) (_closed_result s) (_closed_observers s).
Definition upd_code_observers v (s : DeferredWormhole) : DeferredWormhole :=
  mkDeferredWormhole (_boss s) (_code s) v (_key s) (_key_observers s)
    (_verifier s) (_verifier_observers s) (_versions s)
    (_version_observers s) (_received_data s) (_received_observers s)
    (_observer_result s) (_closed_result s) (_closed_observers s).
Definition upd_key v (s : DeferredWormhole) : DeferredWormhole :=
  mkDeferredWormhole (_boss s) (_code s) (_code_observers s) v
    (_key_observers s) (_verifier s) (_verifier_observers s) (_versions s)
    (_version_observers s) (_received_data s) (_received_observers s)
    (_observer_result s) (_closed_result s) (_closed_observers s).
Definition upd_key_observers v (s : DeferredWormhole) : DeferredWormhole :=
  mkDeferredWormhole (_boss s) (_code s) (_code_observers s) (_key s) v
    (_verifier s) (_verifier_observers s) (_versions s)
    (_version_observers s) (_received_data s) (_received_observers s)
    (_observer_result s) (_closed_result s) (_closed_observers s).
Definition upd_verifier v (s : DeferredWormhole) : DeferredWormhole :=
  mkDeferredWormhole (_boss s) (_code s) (_code_observers s) (_key s)
    (_key_observers s) v (_verifier_observers s) (_versions s)
    (_version_observers s) (_received_data s) (_received_observers s)
    (_observer_result s) (_closed_result s) (_closed_observers s).
Definition upd_verifier_observers v (s : DeferredWormhole) : DeferredWormhole :=
  mkDeferredWormhole (_boss s) (_code s) (_code_observers s) (_key s)
    (_key_observers s) (_verifier s) v (_versions s) (_version_observers s)
    (_received_data s) (_received_observers s) (_observer_result s)
    (_closed_result s) (_closed_observers s).
Definition upd_versions v (s : DeferredWormhole) : DeferredWormhole :=
  mkDeferredWormhole (_boss s) (_code s) (_code_observers s) (_key s)
    (_key_observers s) (_verifier s) (_verifier_observers s) v
    (_version_observers s) (_received_data s) (_received_observers s)
    (_observer_result s) (_closed_result s) (_closed_observers s).
Definition upd_version_observers v (s : DeferredWormhole) : DeferredWormhole :=
  mkDeferredWormhole (_boss s) (_code s) (_code_observers s) (_key s)
    (_key_observers s) (_verifier s) (_verifier_observers s) (_versions s) v
    (_received_data s) (_received_observers s) (_observer_result s)
    (_closed_result s) (_closed_observers s).
Definition upd_received_data v (s : DeferredWormhole) : DeferredWormhole :=
  mkDeferredWormhole (_boss s) (_code s) (_code_observers s) (_key s)
    (_key_observers s) (_verifier s) (_verifier_observers s) (_versions s)
    (_version_observers s) v (_received_observers s) (_observer_result s)
    (_closed_result s) (_closed_observers s).
Definition upd_received_observers v (s : DeferredWormhole) : DeferredWormhole :=
  mkDeferredWormhole (_boss s) (_code s) (_code_observers s) (_key s)
    (_key_observers s) (_verifier s) (_verifier_observers s) (_versions s)
    (_version_observers s) (_received_data s) v (_observer_result s)
    (_closed_result s) (_closed_observers s).
Definition upd_observer_result v (s : DeferredWormhole) : DeferredWormhole :=
  mkDeferredWormhole (_boss s) (_code s) (_code_observers s) (_key s)
    (_key_observers s) (_verifier s) (_verifier_observers s) (_versions s)
    (_version_observers s) (_received_data s) (_received_observers s) v
    (_closed_result s) (_closed_observers s).
Definition upd_closed_result v (s : DeferredWormhole) : DeferredWormhole :=
  mkDeferredWormhole (_boss s) (_code s) (_code_observers s) (_key s)
    (_key_observers s) (_verifier s) (_verifier_observers s) (_versions s)
    (_version_observers s) (_received_data s) (_received_observers s)
    (_observer_result s) v (_closed_observers s).
Definition upd_closed_observers v (s : DeferredWormhole) : DeferredWormhole :=
  mkDeferredWormhole (_boss s) (_code s) (_code_observers s) (_key s)
    (_key_observers s) (_verifier s) (_verifier_observers s) (_versions s)
    (_version_observers s) (_received_data s) (_received_observers s)
    (_observer_result s) (_closed_result s) v.

Record World : Type := mkWorld {
  heap : list dstate;             (* every Deferred made so far *)
  trace : list (nat * outcome);   (* firings, oldest first *)
  self : DeferredWormhole
}.

(** ** The monad of methods *)

Definition M (A : Type) : Type := World -> res A * World.

Definition ret {A} (a : A) : M A := fun w => (Ok a, w).
Definition raise {A} (e : pyval) : M A := fun w => (Raise e, w).
Definition bind {A B} (m : M A) (k : A -> M B) : M B :=
  fun w => match m w with
           | (Ok a, w') => k a w'
           | (Raise e, w') => (Raise e, w')
           end.

Notation "x <- m ;; k" := (bind m (fun x => k))
  (at level 100, m at next level, right associativity).
Notation "m ;; k" := (bind m (fun _ => k))
  (at level 100, right associativity).

Definition get {A} (f : DeferredWormhole -> A) : M A :=
  fun w => (Ok (f (self w)), w).
Definition put (f : DeferredWormhole -> DeferredWormhole) : M unit :=
  fun w => (Ok tt, mkWorld (heap w) (trace w) (f (self w))).

(** [for x in l: body(x)] *)
Fixpoint for_each {A} (l : list A) (body : A -> M unit) : M unit :=
  match l with
  | [] => ret tt
  | x :: l' => body x ;; for_each l' body
  end.

(** ** twisted.internet.defer *)

(** [defer.Deferred()] *)
Definition new_Deferred : M nat :=
  fun w => (Ok (length (heap w)),
            mkWorld (heap w ++ [Pending]) (trace w) (self w)).

Definition fired (o : outcome) : M nat :=
  fun w => let d := length (heap w) in
           (Ok d, mkWorld (heap w ++ [Fired o]) (trace w ++ [(d, o)]) (self w)).

(** [defer.succeed(v)] and [defer.fail(x)] *)
Definition succeed (v : pyval) : M nat := fired (callback_outcome v).
Definition fail (x : pyval) : M nat := fired (errback_outcome x).

(** Firing a Deferred a second time raises [AlreadyCalledError]. *)
Definition fire (d : nat) (o : outcome) : M unit :=
  fun w => match heap w !! d with
           | Some Pending =>
               (Ok tt, mkWorld (<[d := Fired o]> (heap w)) (trace w ++ [(d, o)]) (self w))
           | _ => (Raise AlreadyCalledError, w)
           end.

(** [d.callback(v)] and [d.errback(x)] *)
Definition callback (d : nat) (v : pyval) : M unit := fire d (callback_outcome v).
Definition errback (d : nat) (x : pyval) : M unit := fire d (errback_outcome x).

(** ** Methods of [_DeferredWormhole] *)

Section Methods.
Context (imp : Imports).

Definition __init__ : DeferredWormhole :=
  {| _boss := None;
     _code := None; _code_observers := [];
     _key := None; _key_observers := [];
     _verifier := None; _verifier_observers := [];
     _versions := None; _version_observers := [];
     _received_data := []; _received_observers := [];
     _observer_result := PyNone;
     _closed_result := PyNone; _closed_observers := [] |}.

Definition _set_boss (boss : Boss) : M unit := put (upd_boss (Some boss)).

(** [self._boss.m(...)]: the call reaches the Boss, or the attribute is
    missing. *)
Definition to_boss (c : boss_call) : M unit :=
  b <- get _boss ;;
  match b with
  | Some b => put (upd_boss (Some (boss_receive c b)))
  | None => raise (AttributeError "_boss")
  end.

(** *** from above *)

Definition when_code : M nat :=
  r <- get _observer_result ;;
  if is_not_None r then fail r else
  c <- get _code ;;
  match c with
  | Some code => succeed (PyStr code)
  | None =>
      d <- new_Deferred ;;
      put (fun s => upd_code_observers (_code_observers s ++ [d]) s) ;;
      ret d
  end.

Definition when_key : M nat :=
  r <- get _observer_result ;;
  if is_not_None r then fail r else
  k <- get _key ;;
  match k with
  | Some key => succeed (PyBytes key)
  | None =>
      d <- new_Deferred ;;
      put (fun s => upd_key_observers (_key_observers s ++ [d]) s) ;;
      ret d
  end.

Definition when_verified : M nat :=
  r <- get _observer_result ;;
  if is_not_None r then fail r else
  v <- get _verifier ;;
  match v with
  | Some verifier => succeed (PyBytes verifier)
  | None =>
      d <- new_Deferred ;;
      put (fun s => upd_verifier_observers (_verifier_observers s ++ [d]) s) ;;
      ret d
  end.

Definition when_version : M nat :=
  r <- get _observer_result ;;
  if is_not_None r then fail r else
  v <- get _versions ;;
  match v with
  | Some versions => succeed (PyDict versions)
  | None =>
      d <- new_Deferred ;;
      put (fun s => upd_version_observers (_version_observers s ++ [d]) s) ;;
      ret d
  end.

Definition when_received : M nat :=
  r <- get _observer_result ;;
  if is_not_None r then fail r else
  data <- get _received_data ;;
  match data with
  | m :: rest =>                       (* self._received_data.pop(0) *)
      put (upd_received_data rest) ;;
      succeed (PyBytes m)
  | [] =>
      d <- new_Deferred ;;
      put (fun s => upd_received_observers (_received_observers s ++ [d]) s) ;;
      ret d
  end.

Definition allocate_code (code_length : Z) : M unit :=
  to_boss (B_allocate_code code_length).

(** [return self._boss.input_code()] *)
Definition input_code : M pyval :=
  b <- get _boss ;;
  match b with
  | Some b =>
      put (upd_boss (Some (boss_receive B_input_code b))) ;;
      ret (Boss_input_code imp b)
  | None => raise (AttributeError "_boss")
  end.

Definition set_code (code : string) : M unit := to_boss (B_set_code code).
Definition send (plaintext : bytes) : M unit := to_boss (B_send plaintext).

Definition derive_key (purpose : pyval) (length : Z) : M pyval :=
  match purpose with
  | PyStr p =>
      k <- get _key ;;
      if negb (truthy (py_of_bytes k)) then raise NoKeyError else
      match k with
      | Some key =>
          match key_derive_key imp key (to_bytes imp p) length with
          | Ok v => ret v
          | Raise e => raise e
          end
      | None => raise NoKeyError
      end
  | _ => raise (TypeError (type_of purpose))
  end.

Definition close : M nat :=
  r <- get _closed_result ;;
  if truthy r then succeed r else
  d <- new_Deferred ;;
  put (fun s => upd_closed_observers (_closed_observers s ++ [d]) s) ;;
  to_boss B_close ;;
  ret d.

Definition debug_set_trace (client_name which : string) : M unit :=
  to_boss (B_set_trace client_name which).

(** *** from below *)

Definition got_code (code : string) : M unit :=
  put (upd_code (Some code)) ;;
  obs <- get _code_observers ;;
  for_each obs (fun d => callback d (PyStr code)) ;;
  put (upd_code_observers []).

Definition got_key (key : bytes) : M unit :=
  put (upd_key (Some key)) ;;
  obs <- get _key_observers ;;
  for_each obs (fun d => callback d (PyBytes key)) ;;
  put (upd_key_observers []).

Definition got_verifier (verifier : bytes) : M unit :=
  put (upd_verifier (Some verifier)) ;;
  obs <- get _verifier_observers ;;
  for_each obs (fun d => callback d (PyBytes verifier)) ;;
  put (upd_verifier_observers []).

Definition got_version (versions : list (string * pyval)) : M unit :=
  put (upd_versions (Some versions)) ;;
  obs <- get _version_observers ;;
  for_each obs (fun d => callback d (PyDict versions)) ;;
  put (upd_version_observers []).

Definition received (plaintext : bytes) : M unit :=
  obs <- get _received_observers ;;
  match obs with
  | d :: rest =>                       (* self._received_observers.pop(0) *)
      put (upd_received_observers rest) ;;
      callback d (PyBytes plaintext)
  | [] =>
      put (fun s => upd_received_data (_received_data s ++ [plaintext]) s)
  end.

Definition closed (result : pyval) : M unit :=
  (if is_Exception result then
     put (upd_observer_result (PyFailure result)) ;;
     put (upd_closed_result (PyFailure result))
   else
     put (upd_observer_result (WormholeClosed result)) ;;
     put (upd_closed_result result)) ;;
  r <- get _observer_result ;;
  obs <- get _code_observers ;;
  for_each obs (fun d => errback d r) ;;
  obs <- get _key_observers ;;
  for_each obs (fun d => errback d r) ;;
  obs <- get _verifier_observers ;;
  for_each obs (fun d => errback d r) ;;
  obs <- get _version_observers ;;
  for_each obs (fun d => errback d r) ;;
  obs <- get _received_observers ;;
  for_each obs (fun d => errback d r) ;;
  c <- get _closed_result ;;
  obs <- get _closed_observers ;;
  for_each obs (fun d => callback d c).

End Methods.

(** ** Vocabulary of the properties *)

(** The Deferreds the facade still holds, by attribute. *)
Definition readers (s : DeferredWormhole) : list nat :=
  _code_observers s ++ _key_observers s ++ _verifier_observers s ++
  _version_observers s ++ _received_observers s.

Definition observers (s : DeferredWormhole) : list nat :=
  readers s ++ _closed_observers s.

(** [closed] has not been delivered. *)
Definition is_open (w : World) : Prop := _observer_result (self w) = PyNone.

(** No Deferred is held twice and every Deferred held is waiting. *)
Definition tidy (w : World) : Prop :=
  NoDup (observers (self w)) /\
  Forall (fun d => heap w !! d = Some Pending) (observers (self w)).

(** The four events that deliver one value each. *)
Inductive scalar : Type :=
| Code (code : string)
| SessionKey (key : bytes)
| Verifier (verifier : bytes)
| VersionInfo (versions : list (string * pyval)).

Definition value (x : scalar) : pyval :=
  match x with
  | Code c => PyStr c
  | SessionKey k => PyBytes k
  | Verifier v => PyBytes v
  | VersionInfo vs => PyDict vs
  end.

Definition got (x : scalar) : M unit :=
  match x with
  | Code c => got_code c
  | SessionKey k => got_key k
  | Verifier v => got_verifier v
  | VersionInfo vs => got_version vs
  end.

Definition when (x : scalar) : M nat :=
  match x with
  | Code _ => when_code
  | SessionKey _ => when_key
  | Verifier _ => when_verified
  | VersionInfo _ => when_version
  end.

Definition waiters (x : scalar) (s : DeferredWormhole) : list nat :=
  match x with
  | Code _ => _code_observers s
  | SessionKey _ => _key_observers s
  | Verifier _ => _verifier_observers s
  | VersionInfo _ => _version_observers s
  end.

(** The value cached for the event of [x], as Python sees it. *)
Definition cached (x : scalar) (s : DeferredWormhole) : pyval :=
  match x with
  | Code _ => match _code s with Some c => PyStr c | None => PyNone end
  | SessionKey _ => py_of_bytes (_key s)
  | Verifier _ => py_of_bytes (_verifier s)
  | VersionInfo _ => match _versions s with Some vs => PyDict vs | None => PyNone end
  end.

(** [n] calls of [m] in a row, and what they returned. *)
Fixpoint times {A} (n : nat) (m : M A) : M (list A) :=
  match n with
  | O => ret []
  | S n' => a <- m ;; l <- times n' m ;; ret (a :: l)
  end.

(** What the heap becomes when the Deferreds of [l] fire with [o]. *)
Definition fire_all (l : list nat) (o : outcome) (h : list dstate) : list dstate :=
  fold_left (fun h d => <[d := Fired o]> h) l h.

(** What readers and closers are told when [closed(result)] arrives. *)
Definition told_readers (result : pyval) : outcome :=
  Failed (if is_Exception result then result else WormholeClosed result).

Definition told_closers (result : pyval) : outcome :=
  if is_Exception result then Failed result else callback_outcome result.

(** A run of the message stream: arrivals and requests, interleaved. *)
Inductive stream_op : Type :=
| arrives (m : bytes)
| asks.

Definition arrivals (ops : list stream_op) : list bytes :=
  omap (fun o => match o with arrives m => Some m | asks => None end) ops.

Definition requests (ops : list stream_op) : nat :=
  length (omap (fun o => match o with asks => Some tt | arrives _ => None end) ops).

(** Running it: the Deferreds the requests returned, oldest first; [None]
    once a call has raised. *)
Fixpoint stream (ops : list stream_op) (w : World) : option (list nat) * World :=
  match ops with
  | [] => (Some [], w)
  | arrives m :: ops' =>
      match received m w with
      | (Ok _, w') => stream ops' w'
      | (Raise _, w') => (None, w')
      end
  | asks :: ops' =>
      match when_received w with
      | (Ok d, w') =>
          match stream ops' w' with
          | (Some ds, w'') => (Some (d :: ds), w'')
          | (None, w'') => (None, w'')
          end
      | (Raise _, w') => (None, w')
      end
  end.

(** Whatever may happen to the facade apart from [closed]. *)
Inductive action : Type :=
| do_when (x : scalar)
| do_when_received
| do_allocate_code (code_length : Z)
| do_input_code
| do_set_code (code : string)
| do_send (plaintext : bytes)
| do_derive_key (purpose : pyval) (length : Z)
| do_close
| do_debug_set_trace (client_name which : string)
| do_got (x : scalar)
| do_received (plaintext : bytes).

Definition act (imp : Imports) (a : action) (w : World) : World :=
  match a with
  | do_when x => snd (when x w)
  | do_when_received => snd (when_received w)
  | do_allocate_code n => snd (allocate_code n w)
  | do_input_code => snd (input_code imp w)
  | do_set_code c => snd (set_code c w)
  | do_send p => snd (send p w)
  | do_derive_key p n => snd (derive_key imp p n w)
  | do_close => snd (close w)
  | do_debug_set_trace n wh => snd (debug_set_trace n wh w)
  | do_got x => snd (got x w)
  | do_received p => snd (received p w)
  end.

(** [a] delivers the event of [x] (once more). *)
Definition same_event (x y : scalar) : bool :=
  match x, y with
  | Code _, Code _ | SessionKey _, SessionKey _
  | Verifier _, Verifier _ | VersionInfo _, VersionInfo _ => true
  | _, _ => false
  end.

Definition delivers (x : scalar) (a : action) : bool :=
  match a with
  | do_got y => same_event x y
  | _ => false
  end.

(** The method [m] never changes what [proj] reads off the facade, whether
    it returns or raises. *)
Definition keeps {F A} (proj : DeferredWormhole -> F) (m : M A) : Prop :=
  forall w, proj (self (snd (m w))) = proj (self w).

(** A caller that raised leaves the facade as it was at that point; the next
    call finds it so. *)
Definition acts (imp : Imports) (l : list action) (w : World) : World :=
  fold_left (fun w a => act imp a w) l w.

End Deferred.

(** ** The facade that calls a delegate *)

(** The public methods of a facade, as a delegate's handler may call them
    while it runs. *)
Inductive api_call : Type :=
| A_allocate_code (code_length : Z)
| A_input_code
| A_set_code (code : string)
| A_send (plaintext : bytes)
| A_derive_key (purpose : pyval) (length : Z)
| A_close
| A_debug_set_trace (client_name which : string).

(** A handler of the delegate: it returns, raises, or calls the facade and
    goes on with what the call returned or raised. *)
Inductive handler : Type :=
| H_return
| H_raise (e : pyval)
| H_call (c : api_call) (k : res pyval -> handler).

(** The delegate: an object of the application, with its handlers and with
    the truth value Python gives it ([__bool__] or [__len__] of its class,
    true when it has neither). *)
Record Delegate : Type := mkDelegate {
  delegate_bool : bool;
  wormhole_code : string -> handler;
  wormhole_key : bytes -> handler;
  wormhole_verified : bytes -> handler;
  wormhole_version : list (string * pyval) -> handler;
  wormhole_received : bytes -> handler;
  wormhole_closed : pyval -> handler
}.

Module Delegated.

Record DelegatedWormhole : Type := mkDelegatedWormhole {
  _delegate : Delegate;
  _key : option bytes;
  _boss : option Boss
}.

Definition upd_key v (s : DelegatedWormhole) : DelegatedWormhole :=
  mkDelegatedWormhole (_delegate s) v (_boss s).
Definition upd_boss v (s : DelegatedWormhole) : DelegatedWormhole :=
  mkDelegatedWormhole (_delegate s) (_key s) v.

Record World : Type := mkWorld {
  self : DelegatedWormhole;
  seen : list (api_call * res pyval)   (* what each call made by a handler
                                          got back, oldest first *)
}.

Definition M (A : Type) : Type := World -> res A * World.

Definition ret {A} (a : A) : M A := fun w => (Ok a, w).
Definition raise {A} (e : pyval) : M A := fun w => (Raise e, w).
Definition bind {A B} (m : M A) (k : A -> M B) : M B :=
  fun w => match m w with
           | (Ok a, w') => k a w'
           | (Raise e, w') => (Raise e, w')
           end.

Notation "x <- m ;; k" := (bind m (fun x => k))
  (at level 100, m at next level, right associativity).
Notation "m ;; k" := (bind m (fun _ => k))
  (at level 100, right associativity).

Definition get {A} (f : DelegatedWormhole -> A) : M A :=
  fun w => (Ok (f (self w)), w).
Definition put (f : DelegatedWormhole -> DelegatedWormhole) : M unit :=
  fun w => (Ok tt, mkWorld (f (self w)) (seen w)).

Section Methods.
Context (imp : Imports).

(** [_DelegatedWormhole(delegate)], with [__attrs_post_init__]. *)
Definition __init__ (delegate : Delegate) : DelegatedWormhole :=
  {| _delegate := delegate; _key := None; _boss := None |}.

Definition _set_boss (boss : Boss) : M unit := put (upd_boss (Some boss)).

Definition to_boss (c : boss_call) : M unit :=
  b <- get _boss ;;
  match b with
  | Some b => put (upd_boss (Some (boss_receive c b)))
  | None => raise (AttributeError "_boss")
  end.

(** *** from above *)

Definition allocate_code (code_length : Z) : M unit :=
  to_boss (B_allocate_code code_length).

(** [return self._boss.input_code()] *)
Definition input_code : M pyval :=
  b <- get _boss ;;
  match b with
  | Some b =>
      put (upd_boss (Some (boss_receive B_input_code b))) ;;
      ret (Boss_input_code imp b)
  | None => raise (AttributeError "_boss")
  end.

Definition set_code (code : string) : M unit := to_boss (B_set_code code).
Definition send (plaintext : bytes) : M unit := to_boss (B_send plaintext).

Definition derive_key (purpose : pyval) (length : Z) : M pyval :=
  match purpose with
  | PyStr p =>
      k <- get _key ;;
      if negb (truthy (py_of_bytes k)) then raise NoKeyError else
      match k with
      | Some key =>
          match key_derive_key imp key (to_bytes imp p) length with
          | Ok v => ret v
          | Raise e => raise e
          end
      | None => raise NoKeyError
      end
  | _ => raise (TypeError (type_of purpose))
  end.

Definition close : M unit := to_boss B_close.

Definition debug_set_trace (client_name which : string) : M unit :=
  to_boss (B_set_trace client_name which).

(** *** the delegate at work *)

Definition returning_None (m : M unit) : M pyval := m ;; ret PyNone.

Definition perform (c : api_call) : M pyval :=
  match c with
  | A_allocate_code n => returning_None (allocate_code n)
  | A_input_code => input_code
  | A_set_code code => returning_None (set_code code)
  | A_send plaintext => returning_None (send plaintext)
  | A_derive_key purpose length => derive_key purpose length
  | A_close => returning_None close
  | A_debug_set_trace n wh => returning_None (debug_set_trace n wh)
  end.

Definition saw (c : api_call) (r : res pyval) (w : World) : World :=
  mkWorld (self w) (seen w ++ [(c, r)]).

Fixpoint run (h : handler) : M unit :=
  match h with
  | H_return => ret tt
  | H_raise e => raise e
  | H_call c k => fun w => let (r, w') := perform c w in run (k r) (saw c r w')
  end.

(** *** from below *)

Definition got_code (code : string) : M unit :=
  d <- get _delegate ;; run (wormhole_code d code).

Definition got_key (key : bytes) : M unit :=
  d <- get _delegate ;;
  run (wormhole_key d key) ;;
  put (upd_key (Some key)).                   (* for derive_key() *)

Definition got_verifier (verifier : bytes) : M unit :=
  d <- get _delegate ;; run (wormhole_verified d verifier).

Definition got_version (versions : list (string * pyval)) : M unit :=
  d <- get _delegate ;; run (wormhole_version d versions).

Definition received (plaintext : bytes) : M unit :=
  d <- get _delegate ;; run (wormhole_received d plaintext).

Definition closed (result : pyval) : M unit :=
  d <- get _delegate ;; run (wormhole_closed d result).

End Methods.

(** ** Vocabulary of the properties *)

(** The handler [h] has run to its end: [log] holds the calls it made, in
    order, each with what it got back, and [out] is how the handler ended
    (it returned, or it raised). *)
Inductive played : handler -> list (api_call * res pyval) -> res unit -> Prop :=
| played_return : played H_return [] (Ok tt)
| played_raise e : played (H_raise e) [] (Raise e)
| played_call c k r log out :
    played (k r) log out -> played (H_call c k) ((c, r) :: log) out.

End Delegated.

(** ** The factory *)

(** [os.urandom(n)]: [n] bytes drawn from the system's entropy, here an
    oracle giving the i-th byte drawn. *)
Definition os_urandom (entropy : nat -> byte) (n : nat) : bytes :=
  map entropy (seq 0 n).

Definition hex_digit (n : N) : ascii :=
  match String.get (N.to_nat n) "0123456789abcdef" with
  | Some c => c
  | None => "0"%char
  end.

Definition hex_of_byte (b : byte) : string :=
  let n := Byte.to_N b in
  String (hex_digit (n / 16)) (String (hex_digit (n mod 16)) EmptyString).

(** Modelled from the spec: [util.bytes_to_hexstr] is not part of this file;
    the side is a byte string, hex-encoded: two digits per byte, high
    nibble first. *)
Fixpoint bytes_to_hexstr (bs : bytes) : string :=
  match bs with
  | [] => EmptyString
  | b :: rest => String.append (hex_of_byte b) (bytes_to_hexstr rest)
  end.

(** Reading hex digits back, to state what an encoding is. *)
Definition hex_value (c : ascii) : option N :=
  let n := N_of_ascii c in
  if ((48 <=? n) && (n <=? 57))%N then Some (n - 48)%N
  else if ((97 <=? n) && (n <=? 102))%N then Some (n - 87)%N
  else None.

Fixpoint hexstr_to_bytes (s : string) : option bytes :=
  match s with
  | EmptyString => Some []
  | String hi (String lo rest) =>
      match hex_value hi, hex_value lo, hexstr_to_bytes rest with
      | Some h, Some l, Some bs =>
          match Byte.of_N (16 * h + l) with
          | Some b => Some (b :: bs)
          | None => None
          end
      | _, _, _ => None
      end
  | String _ EmptyString => None
  end.

Definition DebugTiming : pyval := PyObj "DebugTiming" true.
Definition ImmediateJournal : pyval := PyObj "ImmediateJournal" true.

Inductive Wormhole : Type :=
| a_DelegatedWormhole (w : Delegated.DelegatedWormhole)
| a_DeferredWormhole (w : Deferred.DeferredWormhole).

Definition boss_of (w : Wormhole) : option Boss :=
  match w with
  | a_DelegatedWormhole w => Delegated._boss w
  | a_DeferredWormhole w => Deferred._boss w
  end.

(** [w._set_boss(b)] and [b.start()], [b] being the object [w._boss] names. *)
Definition set_boss (b : Boss) (w : Wormhole) : Wormhole :=
  match w with
  | a_DelegatedWormhole w => a_DelegatedWormhole (Delegated.upd_boss (Some b) w)
  | a_DeferredWormhole w => a_DeferredWormhole (Deferred.upd_boss (Some b) w)
  end.

Definition start (w : Wormhole) : Wormhole :=
  match boss_of w with
  | Some b => set_boss (boss_receive B_start b) w
  | None => w
  end.

(** [delegate] is [None] or an object of the application; [if delegate:]
    takes [None] for false and an object for what its class makes of it. *)
Definition create (entropy : nat -> byte)
    (appid relay_url : string) (reactor : pyval)
    (versions : pyval) (delegate : option Delegate)
    (journal tor_manager timing welcome_handler stderr : pyval) : Wormhole :=
  let timing := if truthy timing then timing else DebugTiming in
  let side := bytes_to_hexstr (os_urandom entropy 5) in
  let journal := if truthy journal then journal else ImmediateJournal in
  let welcome_handler :=
    if negb (truthy welcome_handler) then handle_welcome relay_url
    else caller_welcome welcome_handler in
  let w := match delegate with
           | Some d =>
               if delegate_bool d then a_DelegatedWormhole (Delegated.__init__ d)
               else a_DeferredWormhole Deferred.__init__
           | None => a_DeferredWormhole Deferred.__init__
           end in
  let wormhole_versions : gmap string pyval := <["app_versions" := versions]> ∅ in
  let b := mkBoss side relay_url appid wormhole_versions welcome_handler
             reactor journal tor_manager timing [] in
  let w := set_boss b w in
  start w.

(** ** Vocabulary of further properties *)

(** The Boss after it has been sent the calls [cs], oldest first. *)
Definition told (cs : list boss_call) (b : Boss) : Boss :=
  fold_left (fun b c => boss_receive c b) cs b.

Definition forwarded (a : Deferred.action) : option boss_call :=
  match a with
  | Deferred.do_allocate_code n => Some (B_allocate_code n)
  | Deferred.do_input_code => Some B_input_code
  | Deferred.do_set_code c => Some (B_set_code c)
  | Deferred.do_send p => Some (B_send p)
  | Deferred.do_debug_set_trace n wh => Some (B_set_trace n wh)
  | _ => None
  end.

Definition forwarded_call (c : api_call) : option boss_call :=
  match c with
  | A_allocate_code n => Some (B_allocate_code n)
  | A_input_code => Some B_input_code
  | A_set_code code => Some (B_set_code code)
  | A_send p => Some (B_send p)
  | A_derive_key _ _ => None
  | A_close => Some B_close
  | A_debug_set_trace n wh => Some (B_set_trace n wh)
  end.

(** The events the Boss sends to a facade. *)
Inductive event : Type :=
| E_got_code (code : string)
| E_got_key (key : bytes)
| E_got_verifier (verifier : bytes)
| E_got_version (versions : list (string * pyval))
| E_received (plaintext : bytes)
| E_closed (result : pyval).

Definition deliver (imp : Imports) (e : event) : Delegated.M unit :=
  match e with
  | E_got_code c => Delegated.got_code imp c
  | E_got_key k => Delegated.got_key imp k
  | E_got_verifier v => Delegated.got_verifier imp v
  | E_got_version vs => Delegated.got_version imp vs
  | E_received p => Delegated.received imp p
  | E_closed r => Delegated.closed imp r
  end.

(** The handler of the delegate [d] that is meant for the event [e]. *)
Definition handler_of (d : Delegate) (e : event) : handler :=
  match e with
  | E_got_code c => wormhole_code d c
  | E_got_key k => wormhole_key d k
  | E_got_verifier v => wormhole_verified d v
  | E_got_version vs => wormhole_version d vs
  | E_received p => wormhole_received d p
  | E_closed r => wormhole_closed d r
  end.

(** Calls made one after the other, whatever each returns or raises. *)
Definition performs (imp : Imports) (cs : list api_call) (w : Delegated.World)
    : Delegated.World :=
  fold_left (fun w c => snd (Delegated.perform imp c w)) cs w.

(** ** The welcome handler *)

Module Welcome.

(** Text is held as the bytes of its UTF-8 encoding. *)

(** The length in bytes of the line boundary a text starts with, [0] when
    it starts with none.  The boundaries are those of [str.splitlines]:
    CR LF, LF, VT, FF, CR, FS, GS, RS, NEL (U+0085), LS (U+2028) and
    PS (U+2029). *)
Definition boundary (s : string) : nat :=
  match s with
  | String "013" (String "010" _) => 2
  | String "010" _ | String "011" _ | String "012" _ | String "013" _
  | String "028" _ | String "029" _ | String "030" _ => 1
  | String "194" (String "133" _) => 2
  | String "226" (String "128" (String "168" _))
  | String "226" (String "128" (String "169" _)) => 3
  | _ => 0
  end.

(** [s.splitlines()], scanning [s] with the line in progress in [cur] and
    [skip] bytes of a boundary still to pass.  A line ends at each boundary;
    what follows the last boundary is a line only if it is not empty. *)
Fixpoint splitlines_from (skip : nat) (cur : string) (s : string) : list string :=
  match s with
  | EmptyString => match cur with EmptyString => [] | _ => [cur] end
  | String c rest =>
      match skip with
      | S k => splitlines_from k cur rest
      | O =>
          match boundary s with
          | O => splitlines_from 0 (String.append cur (String c EmptyString)) rest
          | S k => cur :: splitlines_from k EmptyString rest
          end
      end
  end.

Definition splitlines (s : string) : list string := splitlines_from 0 EmptyString s.

(** [sep.join(l)] *)
Fixpoint join (sep : string) (l : list string) : string :=
  match l with
  | [] => EmptyString
  | [x] => x
  | x :: rest => String.append x (String.append sep (join sep rest))
  end.

Definition sys_stderr : pyval := PyObj "sys.stderr" true.
Definition sys_stdout : pyval := PyObj "sys.stdout" true.

Record WelcomeHandler : Type := mkWelcomeHandler {
  relay_url : string;
  stderr : pyval
}.

(** [_WelcomeHandler(url)], the second argument left to its default. *)
Definition __init__ (url : string) : WelcomeHandler :=
  {| relay_url := url; stderr := sys_stderr |}.

(** The handler behind a Boss's welcome handler, when it is the bound
    method of a [_WelcomeHandler]. *)
Definition bound (h : welcome) : option WelcomeHandler :=
  match h with
  | handle_welcome url => Some (__init__ url)
  | caller_welcome _ => None
  end.

(** [print(text, file=f)]: the text and a line feed, written to [f], or to
    [sys.stdout] when [f] is [None].  What has been written is kept, oldest
    first, with the stream it went to. *)
Definition print (text : string) (f : pyval) (written : list (pyval * string))
    : list (pyval * string) :=
  written ++ [(if is_not_None f then f else sys_stdout,
               String.append text (String "010" EmptyString))].

(** The welcome message is a dict; of its entries the handler reads
    ["motd"], a text. *)
Definition handle_welcome (self : WelcomeHandler) (welcome : gmap string string)
    (written : list (pyval * string)) : list (pyval * string) :=
  match welcome !! "motd" with
  | Some motd =>
      let motd_lines := splitlines motd in
      let motd_formatted := join (String "010" " ") motd_lines in
      print (String.append "Server (at "
               (String.append (relay_url self)
                  (String.append (String.append ") says:" (String "010" " "))
                     motd_formatted)))
            (stderr self) written
  | None => written
  end.

(** A line feed in [s] is always followed by a space. *)
Fixpoint indented (s : string) : bool :=
  match s with
  | EmptyString => true
  | String "010" rest =>
      match rest with String " " _ => indented rest | _ => false end
  | String _ rest => indented rest
  end.

(** The bytes that are a line boundary by themselves. *)
Definition is_break (c : ascii) : bool :=
  match c with
  | "010" | "011" | "012" | "013" | "028" | "029" | "030" => true
  | _ => false
  end%char.

Fixpoint has_break (s : string) : bool :=
  match s with
  | EmptyString => false
  | String c rest => is_break c || has_break rest
  end.

(** Printable ASCII. *)
Definition printable (s : string) : Prop :=
  Forall (fun c => (32 <= nat_of_ascii c < 127)%nat) (list_ascii_of_string s).

End Welcome.

(** ** Sample inputs *)

Definition sample_entropy (i : nat) : byte :=
  match Byte.of_nat (16 * i + 7) with Some b => b | None => "000"%byte end.

(** A facade as [create] returns it when no delegate is given, in a world
    where no Deferred has been made yet. *)
Definition sample_world : Deferred.World :=
  Deferred.mkWorld [] []
    match create sample_entropy "lothar.com/wormhole/text-or-file-xfer"
            "ws://relay.magic-wormhole.io:4000/v1" (PyObj "reactor" true)
            (PyDict []) None PyNone PyNone PyNone PyNone (PyObj "stderr" true) with
    | a_DeferredWormhole s => s
    | a_DelegatedWormhole _ => Deferred.__init__
    end.

(** A stand-in for the imported functions: the purpose as the bytes of the
    string, a derivation that joins key and purpose, and a Boss whose
    [input_code()] returns a helper object. *)
Definition sample_imports : Imports :=
  mkImports list_byte_of_string (fun k p n => Ok (PyBytes (k ++ p)))
    (fun b => PyObj "CodeInputHelper" true).

(** A delegate that, told the key, at once asks for a derived key and
    ignores the answer; its other handlers do nothing. *)
Definition sample_delegate : Delegate :=
  {| delegate_bool := true;
     wormhole_code := fun _ => H_return;
     wormhole_key := fun _ =>
       H_call (A_derive_key (PyStr "early") 32) (fun _ => H_return);
     wormhole_verified := fun _ => H_return;
     wormhole_version := fun _ => H_return;
     wormhole_received := fun _ => H_return;
     wormhole_closed := fun _ => H_return |}.

(** The facade [create] returns for that delegate. *)
Definition sample_delegated_world : Delegated.World :=
  Delegated.mkWorld
    match create sample_entropy "lothar.com/wormhole/text-or-file-xfer"
            "ws://relay.magic-wormhole.io:4000/v1" (PyObj "reactor" true)
            (PyDict []) (Some sample_delegate) PyNone PyNone PyNone PyNone
            (PyObj "stderr" true) with
    | a_DelegatedWormhole s => s
    | a_DeferredWormhole _ => Delegated.__init__ sample_delegate
    end
    [].

(** A delegate whose [wormhole_key] raises, and the facade [create] returns
    for it. *)
Definition sample_raising_delegate : Delegate :=
  {| delegate_bool := true;
     wormhole_code := fun _ => H_return;
     wormhole_key := fun _ => H_raise (PyExc "ValueError" [] true);
     wormhole_verified := fun _ => H_return;
     wormhole_version := fun _ => H_return;
     wormhole_received := fun _ => H_return;
     wormhole_closed := fun _ => H_return |}.

Definition sample_raising_world : Delegated.World :=
  Delegated.mkWorld
    match create sample_entropy "lothar.com/wormhole/text-or-file-xfer"
            "ws://relay.magic-wormhole.io:4000/v1" (PyObj "reactor" true)
            (PyDict []) (Some sample_raising_delegate) PyNone PyNone PyNone PyNone
            (PyObj "stderr" true) with
    | a_DelegatedWormhole s => s
    | a_DeferredWormhole _ => Delegated.__init__ sample_raising_delegate
    end
    [].

(** A delegate that Python takes for false: an object whose class gives it
    a length, and that is empty. *)
Definition sample_empty_delegate : Delegate :=
  {| delegate_bool := false;
     wormhole_code := fun _ => H_return;
     wormhole_key := fun _ => H_return;
     wormhole_verified := fun _ => H_return;
     wormhole_version := fun _ => H_return;
     wormhole_received := fun _ => H_return;
     wormhole_closed := fun _ => H_return |}.

(** A delegate that, told the key, asks for a derived key with a purpose
    given as bytes, and the facade [create] returns for it. *)
Definition sample_bytes_delegate : Delegate :=
  {| delegate_bool := true;
     wormhole_code := fun _ => H_return;
     wormhole_key := fun _ =>
       H_call (A_derive_key (PyBytes (list_byte_of_string "early")) 32)
         (fun _ => H_return);
     wormhole_verified := fun _ => H_return;
     wormhole_version := fun _ => H_return;
     wormhole_received := fun _ => H_return;
     wormhole_closed := fun _ => H_return |}.

Definition sample_bytes_world : Delegated.World :=
  Delegated.mkWorld
    match create sample_entropy "lothar.com/wormhole/text-or-file-xfer"
            "ws://relay.magic-wormhole.io:4000/v1" (PyObj "reactor" true)
            (PyDict []) (Some sample_bytes_delegate) PyNone PyNone PyNone PyNone
            (PyObj "stderr" true) with
    | a_DelegatedWormhole s => s
    | a_DeferredWormhole _ => Delegated.__init__ sample_bytes_delegate
    end
    [].

(** The Boss of the sample facades, as [create] leaves it. *)
Definition sample_boss : Boss :=
  mkBoss "0717273747" "ws://relay.magic-wormhole.io:4000/v1"
    "lothar.com/wormhole/text-or-file-xfer" (<["app_versions" := PyDict []]> ∅)
    (handle_welcome "ws://relay.magic-wormhole.io:4000/v1")
    (PyObj "reactor" true) ImmediateJournal PyNone DebugTiming [B_start].

(** * Facts about the facade that hands out Deferreds *)

Module DeferredFacts.
Import Deferred.

(** ** The heap *)

Lemma length_fire_all l o h : length (fire_all l o h) = length h.
Proof.
  revert h. induction l as [|d l IH]; intros h; simpl; [done|].
  unfold fire_all in *. simpl. rewrite IH. apply length_insert.
Qed.

Lemma fire_all_cons d l o h : fire_all (d :: l) o h = fire_all l o (<[d := Fired o]> h).
Proof. reflexivity. Qed.

Lemma fire_all_app l1 l2 o h : fire_all (l1 ++ l2) o h = fire_all l2 o (fire_all l1 o h).
Proof. unfold fire_all. apply fold_left_app. Qed.

Lemma fire_all_other l o h d : d ∉ l -> fire_all l o h !! d = h !! d.
Proof.
  revert h. induction l as [|d' l IH]; intros h Hd; [done|].
  rewrite fire_all_cons. rewrite IH by set_solver.
  apply list_lookup_insert_ne. intros ->. set_solver.
Qed.

Lemma fire_all_fired l o h d :
  d ∈ l -> d < length h -> fire_all l o h !! d = Some (Fired o).
Proof.
  revert h. induction l as [|d' l IH]; intros h Hd Hlt; [set_solver|].
  rewrite fire_all_cons.
  destruct (decide (d ∈ l)) as [Hin|Hout].
  - apply IH; [done|]. by rewrite length_insert.
  - rewrite fire_all_other by done.
    apply elem_of_cons in Hd as [->|?]; [|done].
    by apply list_lookup_insert_eq.
Qed.

Lemma for_each_fire l o w :
  NoDup l -> Forall (fun d => heap w !! d = Some Pending) l ->
  for_each l (fun d => fire d o) w =
  (Ok tt, mkWorld (fire_all l o (heap w)) (trace w ++ map (fun d => (d, o)) l) (self w)).
Proof.
  revert w. induction l as [|d l IH]; intros w Hnd Hp.
  - simpl. unfold ret. rewrite app_nil_r. by destruct w.
  - apply NoDup_cons in Hnd as [Hd Hnd]. apply Forall_cons in Hp as [Hpd Hp].
    simpl. unfold bind, fire at 1. rewrite Hpd.
    rewrite IH; simpl; [|done|].
    + by rewrite <- app_assoc.
    + rewrite Forall_forall in *. intros x Hx.
      rewrite list_lookup_insert_ne; [by apply Hp|]. set_solver.
Qed.

(** Unfolding the monad. *)
Ltac step_m :=
  unfold when, got, when_code, when_key, when_verified, when_version,
    when_received, got_code, got_key, got_verifier, got_version, received,
    close, to_boss, bind, get, put, ret, raise, new_Deferred, succeed, fail, fired;
  simpl.

Lemma cached_None x s :
  cached x s = PyNone <->
  match x with
  | Code _ => _code s = None
  | SessionKey _ => _key s = None
  | Verifier _ => _verifier s = None
  | VersionInfo _ => _versions s = None
  end.
Proof.
  destruct x; simpl;
    [destruct (_code s)|destruct (_key s)|destruct (_verifier s)|destruct (_versions s)];
    simpl; split; congruence.
Qed.

Lemma observers_lt w d :
  tidy w -> d ∈ observers (self w) -> d < length (heap w).
Proof.
  intros [_ Hp] Hd. rewrite Forall_forall in Hp.
  eapply lookup_lt_Some, Hp, Hd.
Qed.

Lemma tidy_add w w' :
  tidy w ->
  heap w' = heap w ++ [Pending] ->
  observers (self w') ≡ₚ length (heap w) :: observers (self w) ->
  tidy w'.
Proof.
  intros Ht Hh Hperm.
  assert (forall d, d ∈ observers (self w) -> d < length (heap w)) as Hlt
    by (intros d; by apply observers_lt).
  destruct Ht as [Hnd Hp]. unfold tidy. rewrite Hperm, Hh. split.
  - apply NoDup_cons. split; [|done].
    intros Hin. apply Hlt in Hin. lia.
  - apply Forall_cons. split.
    + rewrite lookup_app_r by lia. by rewrite Nat.sub_diag.
    + rewrite Forall_forall in *. intros d Hd.
      rewrite lookup_app_l; [by apply Hp|]. by apply Hlt.
Qed.

(** A request made before the value is known is queued, last. *)
Lemma when_registers x w :
  is_open w -> cached x (self w) = PyNone ->
  exists w',
    when x w = (Ok (length (heap w)), w') /\
    heap w' = heap w ++ [Pending] /\
    trace w' = trace w /\
    waiters x (self w') = waiters x (self w) ++ [length (heap w)] /\
    observers (self w') ≡ₚ length (heap w) :: observers (self w) /\
    is_open w' /\ cached x (self w') = PyNone.
Proof.
  intros Ho Hc. unfold is_open in *. apply cached_None in Hc.
  destruct x; step_m; rewrite Ho; simpl; rewrite Hc; simpl;
    (eexists; split; [reflexivity|]; simpl;
     repeat split; try done;
     [unfold observers, readers; simpl; solve_Permutation
     |unfold cached; simpl; by rewrite Hc]).
Qed.

Lemma cached_value x s :
  cached x s = value x <->
  match x with
  | Code c => _code s = Some c
  | SessionKey k => _key s = Some k
  | Verifier v => _verifier s = Some v
  | VersionInfo vs => _versions s = Some vs
  end.
Proof.
  destruct x; simpl;
    [destruct (_code s)|destruct (_key s)|destruct (_verifier s)|destruct (_versions s)];
    simpl; split; congruence.
Qed.

Lemma callback_outcome_value x : callback_outcome (value x) = Succeeded (value x).
Proof. by destruct x. Qed.

(** A request made once the value is known gets it at once. *)
Lemma when_cached x w :
  is_open w -> cached x (self w) = value x ->
  when x w =
  (Ok (length (heap w)),
   mkWorld (heap w ++ [Fired (Succeeded (value x))])
           (trace w ++ [(length (heap w), Succeeded (value x))]) (self w)).
Proof.
  intros Ho Hc. unfold is_open in *. apply cached_value in Hc.
  destruct x; step_m; rewrite Ho; simpl; by rewrite Hc.
Qed.

Lemma tidy_remove w w' l o :
  tidy w ->
  heap w' = fire_all l o (heap w) ->
  observers (self w) ≡ₚ l ++ observers (self w') ->
  tidy w'.
Proof.
  intros [Hnd Hp] Hh Hperm. rewrite Hperm in Hnd, Hp.
  apply NoDup_app in Hnd as (_ & Hdis & Hnd). apply Forall_app in Hp as [_ Hp].
  split; [done|]. rewrite Forall_forall in *. intros d Hd.
  rewrite Hh, fire_all_other; [by apply Hp|].
  intros Hin. by apply (Hdis d).
Qed.

(** Delivery fires the queue in order and empties it. *)
Lemma got_delivers x w :
  tidy w ->
  exists w',
    got x w = (Ok tt, w') /\
    heap w' = fire_all (waiters x (self w)) (Succeeded (value x)) (heap w) /\
    trace w' = trace w ++ map (fun d => (d, Succeeded (value x))) (waiters x (self w)) /\
    waiters x (self w') = [] /\
    cached x (self w') = value x /\
    _observer_result (self w') = _observer_result (self w) /\
    observers (self w) ≡ₚ waiters x (self w) ++ observers (self w').
Proof.
  intros [Hnd Hp].
  assert (NoDup (waiters x (self w)) /\
          Forall (fun d => heap w !! d = Some Pending) (waiters x (self w))) as [Hnd' Hp'].
  { unfold observers, readers in *. rewrite !NoDup_app in Hnd. rewrite !Forall_app in Hp.
    destruct x; simpl; naive_solver. }
  destruct x; step_m; unfold callback; simpl;
    (rewrite for_each_fire by done; simpl;
     eexists; split; [reflexivity|]; simpl; repeat split; try done;
     unfold observers, readers; simpl; solve_Permutation).
Qed.

Lemma for_each_fire_seq l0 l o0 o h t s :
  NoDup (l0 ++ l) -> Forall (fun d => h !! d = Some Pending) (l0 ++ l) ->
  for_each l (fun d => fire d o) (mkWorld (fire_all l0 o0 h) t s) =
  (Ok tt, mkWorld (fire_all l o (fire_all l0 o0 h)) (t ++ map (fun d => (d, o)) l) s).
Proof.
  intros Hnd Hp. apply NoDup_app in Hnd as (_ & Hdis & Hnd).
  apply Forall_app in Hp as [_ Hp].
  rewrite for_each_fire; simpl; [done|done|].
  rewrite Forall_forall in *. intros d Hd.
  rewrite fire_all_other; [by apply Hp|]. intros Hin. by apply (Hdis d).
Qed.

Lemma closed_delivers result w :
  tidy w ->
  closed result w =
  (Ok tt,
   mkWorld
     (fire_all (_closed_observers (self w)) (told_closers result)
        (fire_all (readers (self w)) (told_readers result) (heap w)))
     (trace w ++ map (fun d => (d, told_readers result)) (readers (self w))
              ++ map (fun d => (d, told_closers result)) (_closed_observers (self w)))
     (upd_closed_result (if is_Exception result then PyFailure result else result)
        (upd_observer_result
           (if is_Exception result then PyFailure result else WormholeClosed result)
           (self w)))).
Proof.
  intros [Hnd Hp]. unfold observers, readers in *.
  set (a := _code_observers (self w)) in *.
  set (b := _key_observers (self w)) in *.
  set (c := _verifier_observers (self w)) in *.
  set (d := _version_observers (self w)) in *.
  set (e := _received_observers (self w)) in *.
  set (f := _closed_observers (self w)) in *.
  rewrite <- !app_assoc in Hnd, Hp.
  assert (NoDup ((a ++ b ++ c ++ d ++ e) ++ f) /\
          Forall (fun x => heap w !! x = Some Pending) ((a ++ b ++ c ++ d ++ e) ++ f)) as [N5 P5]
    by (by rewrite <- !app_assoc).
  assert (NoDup ((a ++ b ++ c ++ d) ++ e) /\
          Forall (fun x => heap w !! x = Some Pending) ((a ++ b ++ c ++ d) ++ e)) as [N4 P4].
  { apply NoDup_app in N5 as (N5 & _). apply Forall_app in P5 as (P5 & _).
    by rewrite <- !app_assoc. }
  assert (NoDup ((a ++ b ++ c) ++ d) /\
          Forall (fun x => heap w !! x = Some Pending) ((a ++ b ++ c) ++ d)) as [N3 P3].
  { apply NoDup_app in N4 as (N4 & _). apply Forall_app in P4 as (P4 & _).
    by rewrite <- !app_assoc. }
  assert (NoDup ((a ++ b) ++ c) /\
          Forall (fun x => heap w !! x = Some Pending) ((a ++ b) ++ c)) as [N2 P2].
  { apply NoDup_app in N3 as (N3 & _). apply Forall_app in P3 as (P3 & _).
    by rewrite <- !app_assoc. }
  assert (NoDup (a ++ b) /\
          Forall (fun x => heap w !! x = Some Pending) (a ++ b)) as [N1 P1].
  { apply NoDup_app in N2 as (N2 & _). by apply Forall_app in P2 as (P2 & _). }
  assert (NoDup ([] ++ a) /\
          Forall (fun x => heap w !! x = Some Pending) ([] ++ a)) as [N0 P0].
  { apply NoDup_app in N1 as (N1 & _). by apply Forall_app in P1 as (P1 & _). }
  assert (forall o, fire_all [] o (heap w) = heap w) as Hnil by done.
  unfold told_readers, told_closers, closed.
  destruct (is_Exception result) eqn:Hex;
    unfold bind, get, put, errback, callback; simpl; fold a b c d e f;
    (rewrite <- (Hnil (errback_outcome (WormholeClosed result))) at 1 ||
     rewrite <- (Hnil (Failed result)) at 1);
    rewrite (for_each_fire_seq [] a) by done; simpl; fold b;
    rewrite (for_each_fire_seq a b) by done; simpl; fold c;
    rewrite <- fire_all_app;
    rewrite (for_each_fire_seq (a ++ b) c) by done; simpl; fold d;
    rewrite <- fire_all_app, <- ?app_assoc;
    rewrite (for_each_fire_seq (a ++ b ++ c) d) by done; simpl; fold e;
    rewrite <- fire_all_app, <- ?app_assoc;
    rewrite (for_each_fire_seq (a ++ b ++ c ++ d) e) by done; simpl; fold f;
    rewrite <- fire_all_app, <- ?app_assoc;
    rewrite (for_each_fire_seq (a ++ b ++ c ++ d ++ e) f) by done; simpl;
    by rewrite !map_app, <- !app_assoc.
Qed.

(** ** The message stream, one call at a time *)

Lemma received_to_waiter m w d rest :
  tidy w -> _received_observers (self w) = d :: rest ->
  received m w =
  (Ok tt, mkWorld (<[d := Fired (Succeeded (PyBytes m))]> (heap w))
                  (trace w ++ [(d, Succeeded (PyBytes m))])
                  (upd_received_observers rest (self w))).
Proof.
  intros [_ Hp] Hobs. step_m. rewrite Hobs. simpl.
  unfold callback, fire. simpl.
  rewrite Forall_forall in Hp. rewrite (Hp d); [done|].
  unfold observers, readers. rewrite Hobs. set_solver.
Qed.

Lemma received_buffers m w :
  _received_observers (self w) = [] ->
  received m w =
  (Ok tt, mkWorld (heap w) (trace w)
                  (upd_received_data (_received_data (self w) ++ [m]) (self w))).
Proof. intros Hobs. step_m. by rewrite Hobs. Qed.

Lemma when_received_from_buffer w m rest :
  is_open w -> _received_data (self w) = m :: rest ->
  when_received w =
  (Ok (length (heap w)),
   mkWorld (heap w ++ [Fired (Succeeded (PyBytes m))])
           (trace w ++ [(length (heap w), Succeeded (PyBytes m))])
           (upd_received_data rest (self w))).
Proof. intros Ho Hd. unfold is_open in Ho. step_m. rewrite Ho. simpl. by rewrite Hd. Qed.

Lemma when_received_waits w :
  is_open w -> _received_data (self w) = [] ->
  when_received w =
  (Ok (length (heap w)),
   mkWorld (heap w ++ [Pending]) (trace w)
           (upd_received_observers (_received_observers (self w) ++ [length (heap w)])
              (self w))).
Proof. intros Ho Hd. unfold is_open in Ho. step_m. rewrite Ho. simpl. by rewrite Hd. Qed.

Lemma stream_snoc ops op w0 :
  stream (ops ++ [op]) w0 =
  match stream ops w0 with
  | (Some ds, w) =>
      match op with
      | arrives m =>
          match received m w with
          | (Ok _, w') => (Some ds, w')
          | (Raise _, w') => (None, w')
          end
      | asks =>
          match when_received w with
          | (Ok d, w') => (Some (ds ++ [d]), w')
          | (Raise _, w') => (None, w')
          end
      end
  | (None, w) => (None, w)
  end.
Proof.
  revert w0. induction ops as [|o ops IH]; intros w0; simpl.
  - destruct op; simpl.
    + by destruct (received m w0) as [[]].
    + by destruct (when_received w0) as [[]].
  - destruct o.
    + destruct (received m w0) as [[] w1]; [apply IH|done].
    + destruct (when_received w0) as [[d|] w1]; [|done].
      rewrite IH. destruct (stream ops w1) as [[ds|] w2]; [|done].
      destruct op.
      * by destruct (received m w2) as [[]].
      * by destruct (when_received w2) as [[]].
Qed.

Lemma arrivals_snoc ops op :
  arrivals (ops ++ [op]) =
  arrivals ops ++ match op with arrives m => [m] | asks => [] end.
Proof. unfold arrivals. rewrite omap_app. by destruct op. Qed.

Lemma zip_with_nil_r {A B C} (f : A -> B -> C) l : zip_with f l [] = [].
Proof. by destruct l. Qed.

Lemma zip_with_snoc_r {A B C} (f : A -> B -> C) l k y :
  zip_with f l (k ++ [y]) =
  zip_with f l k ++ match l !! length k with Some x => [f x y] | None => [] end.
Proof.
  revert k. induction l as [|x l IH]; intros [|b k]; simpl; try done.
  - by rewrite zip_with_nil_r.
  - by rewrite IH.
Qed.

Lemma zip_with_snoc_l {A B C} (f : A -> B -> C) l k x :
  zip_with f (l ++ [x]) k =
  zip_with f l k ++ match k !! length l with Some y => [f x y] | None => [] end.
Proof.
  revert k. induction l as [|a l IH]; intros [|b k]; simpl; try done.
  by rewrite IH.
Qed.

Lemma drop_cons_inv {A} n (l : list A) x rest :
  drop n l = x :: rest -> l !! n = Some x /\ rest = drop (S n) l /\ n < length l.
Proof.
  intros H. assert (l !! n = Some x) as Hl.
  { rewrite <- (Nat.add_0_r n), <- lookup_drop. by rewrite H. }
  split; [done|]. split; [|by eapply lookup_lt_Some].
  rewrite (drop_S _ _ _ Hl) in H. congruence.
Qed.

Lemma drop_nil_inv {A} n (l : list A) : drop n l = [] -> length l <= n.
Proof.
  intros H. apply (f_equal length) in H. rewrite length_drop in H. simpl in H. lia.
Qed.

Lemma tidy_grow w w' l :
  tidy w -> heap w' = heap w ++ l -> observers (self w') = observers (self w) ->
  tidy w'.
Proof.
  intros [Hnd Hp] Hh Ho. unfold tidy. rewrite Ho, Hh. split; [done|].
  rewrite Forall_forall in *. intros d Hd.
  rewrite lookup_app_l; [by apply Hp|]. eapply lookup_lt_Some. by apply Hp.
Qed.

Lemma stream_invariant ops w0 :
  tidy w0 -> is_open w0 ->
  _received_data (self w0) = [] \/ _received_observers (self w0) = [] ->
  exists ds w,
    stream ops w0 = (Some ds, w) /\ tidy w /\ is_open w /\
    _received_data (self w) =
      drop (length (_received_observers (self w0) ++ ds))
           (_received_data (self w0) ++ arrivals ops) /\
    _received_observers (self w) =
      drop (length (_received_data (self w0) ++ arrivals ops))
           (_received_observers (self w0) ++ ds) /\
    trace w = trace w0 ++
      zip_with (fun d m => (d, Succeeded (PyBytes m)))
        (_received_observers (self w0) ++ ds)
        (_received_data (self w0) ++ arrivals ops) /\
    (forall i d m,
       (_received_observers (self w0) ++ ds) !! i = Some d ->
       (_received_data (self w0) ++ arrivals ops) !! i = Some m ->
       heap w !! d = Some (Fired (Succeeded (PyBytes m)))).
Proof.
  intros Ht0 Ho0 Hone.
  remember (_received_data (self w0)) as data0 eqn:Hd0.
  remember (_received_observers (self w0)) as obs0 eqn:Hb0.
  induction ops as [|op ops IH] using rev_ind.
  - exists [], w0. simpl. rewrite !app_nil_r, <- Hd0, <- Hb0.
    destruct Hone as [->| ->]; simpl; rewrite ?drop_nil, ?zip_with_nil_r, ?app_nil_r;
      split_and!; done.
  - destruct IH as (ds & w & Hrun & Ht & Ho & Hdata & Hobs & Htr & Hheap).
    rewrite stream_snoc, Hrun, arrivals_snoc.
    set (ms := data0 ++ arrivals ops) in *. set (rs := obs0 ++ ds) in *.
    destruct op as [m|].
    + (* a message arrives *)
      rewrite (app_assoc data0). fold ms.
      destruct (_received_observers (self w)) as [|d rest] eqn:Hq.
      * rewrite received_buffers by done. symmetry in Hobs.
        apply drop_nil_inv in Hobs.
        exists ds, (mkWorld (heap w) (trace w)
                      (upd_received_data (_received_data (self w) ++ [m]) (self w))).
        fold rs. simpl. split_and!; try done.
        -- rewrite Hdata. by rewrite drop_app_le by lia.
        -- rewrite Hq. symmetry. apply drop_ge. rewrite length_app. simpl. lia.
        -- rewrite Htr, zip_with_snoc_r.
           rewrite (lookup_ge_None_2 rs) by lia. by rewrite app_nil_r.
        -- intros i d' m' Hd Hm. apply (Hheap i d' m' Hd).
           rewrite lookup_app_l in Hm; [done|].
           apply lookup_lt_Some in Hd. lia.
      * rewrite (received_to_waiter m w d rest) by done. symmetry in Hobs.
        apply drop_cons_inv in Hobs as (Hd & -> & Hlt).
        exists ds, (mkWorld (<[d := Fired (Succeeded (PyBytes m))]> (heap w))
                      (trace w ++ [(d, Succeeded (PyBytes m))])
                      (upd_received_observers (drop (S (length ms)) rs) (self w))).
        fold rs. simpl.
        assert (d < length (heap w)) as Hdlt.
        { apply observers_lt; [done|]. unfold observers, readers. rewrite Hq. set_solver. }
        assert (heap w !! d = Some Pending) as Hpend.
        { destruct Ht as [_ Hp]. rewrite Forall_forall in Hp. apply Hp.
          unfold observers, readers. rewrite Hq. set_solver. }
        split_and!; try done.
        -- eapply (tidy_remove w _ [d]); [done|reflexivity|].
           unfold observers, readers. simpl. rewrite Hq. solve_Permutation.
        -- rewrite Hdata. rewrite !drop_ge; [done| |lia].
           rewrite length_app. simpl. lia.
        -- by rewrite length_app, Nat.add_1_r.
        -- rewrite Htr, zip_with_snoc_r, Hd. by rewrite <- app_assoc.
        -- intros i d' m' Hd' Hm'.
           destruct (decide (i = length ms)) as [->|Hne].
           ++ rewrite Hd in Hd'. rewrite list_lookup_middle in Hm' by done.
              simplify_eq. by apply list_lookup_insert_eq.
           ++ assert (i < length ms).
              { apply lookup_lt_Some in Hm'. rewrite length_app in Hm'. simpl in Hm'. lia. }
              rewrite lookup_app_l in Hm' by done.
              pose proof (Hheap i d' m' Hd' Hm') as Hf.
              rewrite list_lookup_insert_ne; [done|]. intros ->. congruence.
    + (* a request *)
      rewrite app_nil_r. fold ms.
      destruct (_received_data (self w)) as [|m rest] eqn:Hq.
      * rewrite when_received_waits by done. symmetry in Hdata.
        apply drop_nil_inv in Hdata.
        eexists _, _. split; [reflexivity|].
        rewrite (app_assoc obs0). fold rs. simpl. split_and!; try done.
        -- eapply tidy_add; [done|reflexivity|].
           unfold observers, readers. simpl. solve_Permutation.
        -- rewrite Hq. symmetry. apply drop_ge. rewrite length_app. simpl. lia.
        -- rewrite Hobs. by rewrite drop_app_le by lia.
        -- rewrite Htr, zip_with_snoc_l.
           rewrite (lookup_ge_None_2 ms) by lia. by rewrite app_nil_r.
        -- intros i d' m' Hd Hm.
           assert (i < length rs) by (apply lookup_lt_Some in Hm; lia).
           rewrite lookup_app_l in Hd by done.
           pose proof (Hheap i d' m' Hd Hm) as Hf.
           rewrite lookup_app_l; [done|]. by eapply lookup_lt_Some.
      * rewrite (when_received_from_buffer w m rest) by done. symmetry in Hdata.
        apply drop_cons_inv in Hdata as (Hm & -> & Hlt).
        eexists _, _. split; [reflexivity|].
        rewrite (app_assoc obs0). fold rs. simpl. split_and!; try done.
        -- eapply tidy_grow; [done|reflexivity|done].
        -- by rewrite length_app, Nat.add_1_r.
        -- rewrite Hobs. rewrite !drop_ge; [done| |lia].
           rewrite length_app. simpl. lia.
        -- rewrite Htr, zip_with_snoc_l, Hm. by rewrite <- app_assoc.
        -- intros i d' m' Hd' Hm'.
           destruct (decide (i = length rs)) as [->|Hne].
           ++ rewrite Hm in Hm'. rewrite list_lookup_middle in Hd' by done.
              simplify_eq. rewrite lookup_app_r by lia. by rewrite Nat.sub_diag.
           ++ assert (i < length rs).
              { apply lookup_lt_Some in Hd'. rewrite length_app in Hd'. simpl in Hd'. lia. }
              rewrite lookup_app_l in Hd' by done.
              pose proof (Hheap i d' m' Hd' Hm') as Hf.
              rewrite lookup_app_l; [done|]. by eapply lookup_lt_Some.
Qed.


(** ** What a method leaves alone *)

Section Keeps.
Context {F : Type} (proj : DeferredWormhole -> F).

Lemma keeps_ret {A} (a : A) : keeps proj (ret a).
Proof. done. Qed.

Lemma keeps_raise {A} e : keeps proj (@raise A e).
Proof. done. Qed.

Lemma keeps_get {A} (f : DeferredWormhole -> A) : keeps proj (get f).
Proof. done. Qed.

Lemma keeps_put f : (forall s, proj (f s) = proj s) -> keeps proj (put f).
Proof. intros Hf w. apply Hf. Qed.

Lemma keeps_bind {A B} (m : M A) (k : A -> M B) :
  keeps proj m -> (forall a, keeps proj (k a)) -> keeps proj (bind m k).
Proof.
  intros Hm Hk w. unfold bind. specialize (Hm w).
  destruct (m w) as [[a|e] w']; simpl in *; [|done].
  by rewrite Hk.
Qed.

Lemma keeps_new_Deferred : keeps proj new_Deferred.
Proof. done. Qed.

Lemma keeps_fired o : keeps proj (fired o).
Proof. done. Qed.

Lemma keeps_fire d o : keeps proj (fire d o).
Proof. intros w. unfold fire. by destruct (heap w !! d) as [[]|]. Qed.

Lemma keeps_for_each {A} (l : list A) body :
  (forall a, keeps proj (body a)) -> keeps proj (for_each l body).
Proof.
  intros Hb. induction l as [|a l IH]; simpl; [done|].
  apply keeps_bind; [apply Hb|done].
Qed.

Lemma keeps_if {A} (b : bool) (m1 m2 : M A) :
  keeps proj m1 -> keeps proj m2 -> keeps proj (if b then m1 else m2).
Proof. by destruct b. Qed.

End Keeps.

Ltac keeps_tac :=
  repeat first
    [ apply keeps_ret | apply keeps_raise | apply keeps_get
    | apply keeps_new_Deferred | apply keeps_fired | apply keeps_fire
    | apply keeps_put; intros; reflexivity
    | apply keeps_bind; [|intros]
    | apply keeps_for_each; intros
    | apply keeps_if
    | match goal with |- keeps _ (match ?x with _ => _ end) => destruct x end
    | progress unfold succeed, fail, callback, errback, to_boss ].

Lemma when_keeps_result x : keeps _observer_result (when x).
Proof. destruct x; unfold when, when_code, when_key, when_verified, when_version; keeps_tac. Qed.

Lemma got_keeps_result x : keeps _observer_result (got x).
Proof. destruct x; unfold got, got_code, got_key, got_verifier, got_version; keeps_tac. Qed.

Lemma act_keeps_result imp a w :
  _observer_result (self (act imp a w)) = _observer_result (self w).
Proof.
  destruct a; simpl;
    [apply when_keeps_result| | | | | | | | |apply got_keeps_result|];
    match goal with |- _ (self (snd (?m w))) = _ => revert w; change (keeps _observer_result m) end;
    unfold when_received, allocate_code, input_code, set_code, send, derive_key,
      close, debug_set_trace, received; keeps_tac.
Qed.

Lemma acts_keep_result imp l w :
  _observer_result (self (acts imp l w)) = _observer_result (self w).
Proof.
  revert w. induction l as [|a l IH]; intros w; simpl; [done|].
  unfold acts in *. simpl. by rewrite IH, act_keeps_result.
Qed.

Lemma closed_keeps_key result : keeps _key (closed result).
Proof. unfold closed. keeps_tac. Qed.

Lemma closed_sets_result result w :
  _observer_result (self (snd (closed result w))) =
  (if is_Exception result then PyFailure result else WormholeClosed result).
Proof.
  unfold closed.
  destruct (is_Exception result).
  all: unfold bind at 1 2; unfold put at 1 2; simpl.
  all: match goal with |- _ (self (snd (?m ?w'))) = _ =>
         transitivity (_observer_result (self w')); [|done];
         generalize w'; change (keeps _observer_result m) end.
  all: keeps_tac.
Qed.

Lemma callback_outcome_cached x s : callback_outcome (cached x s) = Succeeded (cached x s).
Proof.
  destruct x; simpl;
    [destruct (_code s)|destruct (_key s)|destruct (_verifier s)|destruct (_versions s)];
    done.
Qed.

Lemma when_known x w :
  is_open w -> cached x (self w) <> PyNone ->
  when x w =
  (Ok (length (heap w)),
   mkWorld (heap w ++ [Fired (Succeeded (cached x (self w)))])
           (trace w ++ [(length (heap w), Succeeded (cached x (self w)))]) (self w)).
Proof.
  intros Ho Hc. unfold is_open in *.
  destruct x; step_m; rewrite Ho; simpl; simpl in Hc;
    [destruct (_code (self w))|destruct (_key (self w))
    |destruct (_verifier (self w))|destruct (_versions (self w))]; done.
Qed.

(** Once [closed] has been delivered every request for a value or a message
    is answered with the failure kept for readers. *)
Lemma when_after_closed x w :
  is_not_None (_observer_result (self w)) = true ->
  when x w = fail (_observer_result (self w)) w.
Proof.
  intros H. destruct x; unfold when, when_code, when_key, when_verified, when_version,
    bind, get; simpl; by rewrite H.
Qed.

Lemma when_received_after_closed w :
  is_not_None (_observer_result (self w)) = true ->
  when_received w = fail (_observer_result (self w)) w.
Proof. intros H. unfold when_received, bind, get; simpl. by rewrite H. Qed.

Lemma times_when x n w :
  tidy w -> is_open w -> cached x (self w) = PyNone ->
  exists w',
    times n (when x) w = (Ok (seq (length (heap w)) n), w') /\
    heap w' = heap w ++ replicate n Pending /\
    trace w' = trace w /\
    waiters x (self w') = waiters x (self w) ++ seq (length (heap w)) n /\
    tidy w' /\ is_open w' /\ cached x (self w') = PyNone.
Proof.
  revert w. induction n as [|n IH]; intros w Ht Ho Hc.
  - exists w. simpl. unfold ret. rewrite !app_nil_r. by split_and!.
  - destruct (when_registers x w Ho Hc) as (w1 & Hw & Hh1 & Htr1 & Hq1 & Hperm & Ho1 & Hc1).
    assert (tidy w1) as Ht1 by (by eapply tidy_add).
    destruct (IH w1 Ht1 Ho1 Hc1) as (w2 & Hrun & Hh2 & Htr2 & Hq2 & Ht2 & Ho2 & Hc2).
    exists w2. simpl. unfold bind at 1. rewrite Hw. unfold bind at 1. rewrite Hrun.
    rewrite Hh1, length_app in *. simpl in *. rewrite Nat.add_1_r in *.
    unfold ret. split_and!; try done.
    + by rewrite Hh2, <- app_assoc.
    + congruence.
    + by rewrite Hq2, Hq1, <- app_assoc.
Qed.

(** ** [close] *)

Lemma close_cached w :
  truthy (_closed_result (self w)) = true ->
  close w =
  (Ok (length (heap w)),
   mkWorld (heap w ++ [Fired (callback_outcome (_closed_result (self w)))])
           (trace w ++ [(length (heap w), callback_outcome (_closed_result (self w)))])
           (self w)).
Proof. intros H. step_m. by rewrite H. Qed.

Lemma close_registers w b :
  truthy (_closed_result (self w)) = false -> _boss (self w) = Some b ->
  close w =
  (Ok (length (heap w)),
   mkWorld (heap w ++ [Pending]) (trace w)
     (upd_boss (Some (boss_receive B_close b))
        (upd_closed_observers (_closed_observers (self w) ++ [length (heap w)]) (self w)))).
Proof. intros H Hb. step_m. rewrite H. simpl. by rewrite Hb. Qed.


Lemma is_not_None_false v : is_not_None v = false <-> v = PyNone.
Proof. by destruct v. Qed.

Lemma is_not_None_true v : is_not_None v = true <-> v <> PyNone.
Proof. by destruct v. Qed.

Lemma tidy_same w w' :
  tidy w -> heap w' = heap w -> observers (self w') = observers (self w) -> tidy w'.
Proof. intros Ht Hh Ho. eapply (tidy_grow w w' []); [done| |done]. by rewrite app_nil_r. Qed.

Lemma to_boss_tidy c w : tidy w -> tidy (snd (to_boss c w)).
Proof.
  intros Ht. unfold to_boss, bind, get, put, raise. simpl.
  destruct (_boss (self w)); simpl; [|done]. by eapply tidy_same.
Qed.

(** [input_code] does to the facade what any call passed on does. *)
Lemma input_code_world imp w : snd (input_code imp w) = snd (to_boss B_input_code w).
Proof.
  unfold input_code, to_boss, bind, get, put, ret, raise. simpl.
  by destruct (_boss (self w)).
Qed.

Lemma derive_key_world imp p n w : snd (derive_key imp p n w) = w.
Proof.
  unfold derive_key. destruct p; try done.
  unfold bind, get, raise, ret. simpl.
  destruct (_key (self w)) as [[|b k]|]; simpl; try done.
  by destruct (key_derive_key imp _ _ _).
Qed.

(** The facade stays tidy for as long as it is open. *)
Lemma act_keeps_tidy imp a w : is_open w -> tidy w -> tidy (act imp a w).
Proof.
  intros Ho Ht. destruct a as [x| |n| |c|p|p n| |n wh|x|m]; simpl.
  - destruct (is_not_None (cached x (self w))) eqn:E.
    + apply is_not_None_true in E. rewrite when_known by done. by eapply tidy_grow.
    + apply is_not_None_false in E.
      destruct (when_registers x w Ho E) as (w' & -> & Hh & _ & _ & Hperm & _).
      by eapply tidy_add.
  - destruct (_received_data (self w)) as [|m rest] eqn:E.
    + rewrite when_received_waits by done. eapply tidy_add; [done|reflexivity|].
      unfold observers, readers. simpl. solve_Permutation.
    + rewrite (when_received_from_buffer w m rest) by done. by eapply tidy_grow.
  - by apply to_boss_tidy.
  - rewrite input_code_world. by apply to_boss_tidy.
  - by apply to_boss_tidy.
  - by apply to_boss_tidy.
  - by rewrite derive_key_world.
  - destruct (truthy (_closed_result (self w))) eqn:E.
    + rewrite close_cached by done. by eapply tidy_grow.
    + step_m. rewrite E. simpl.
      assert (tidy (mkWorld (heap w ++ [Pending]) (trace w)
                (upd_closed_observers (_closed_observers (self w) ++ [length (heap w)])
                   (self w)))) as Ht'.
      { eapply tidy_add; [done|reflexivity|].
        unfold observers, readers. simpl. solve_Permutation. }
      destruct (_boss (self w)); simpl; [|done]. by eapply tidy_same.
  - by apply to_boss_tidy.
  - destruct (got_delivers x w Ht) as (w' & -> & Hh & _ & _ & _ & _ & Hperm).
    by eapply tidy_remove.
  - destruct (_received_observers (self w)) as [|d rest] eqn:E.
    + rewrite received_buffers by done. by eapply tidy_same.
    + rewrite (received_to_waiter m w d rest) by done.
      eapply (tidy_remove w _ [d]); [done|reflexivity|].
      unfold observers, readers. simpl. rewrite E. solve_Permutation.
Qed.

Lemma acts_keep_tidy imp l w :
  is_open w -> tidy w -> is_open (acts imp l w) /\ tidy (acts imp l w).
Proof.
  revert w. induction l as [|a l IH]; intros w Ho Ht; [done|].
  unfold acts in *. simpl. apply IH.
  - unfold is_open in *. by rewrite act_keeps_result.
  - by apply act_keeps_tidy.
Qed.

Lemma fresh_tidy : is_open (mkWorld [] [] __init__) /\ tidy (mkWorld [] [] __init__).
Proof. split; [done|]. split; simpl; [apply NoDup_nil_2|apply Forall_nil_2]. Qed.


Lemma act_keeps_cached imp x a w :
  delivers x a = false -> cached x (self (act imp a w)) = cached x (self w).
Proof.
  intros Hd. revert w.
  destruct a as [y| |n| |c|p|p n| |n wh|y|m]; simpl;
    match goal with |- forall w, _ (self (snd (?m w))) = _ => change (keeps (cached x) m) end.
  2-9,11: destruct x;
    unfold when_received, allocate_code, input_code, set_code, send, derive_key,
      close, debug_set_trace, received; keeps_tac.
  - destruct x, y; unfold when, when_code, when_key, when_verified, when_version; keeps_tac.
  - destruct x, y; try discriminate Hd;
      unfold got, got_code, got_key, got_verifier, got_version; keeps_tac.
Qed.

Lemma acts_keep_cached imp x l w :
  Forall (fun a => delivers x a = false) l ->
  cached x (self (acts imp l w)) = cached x (self w).
Proof.
  revert w. induction l as [|a l IH]; intros w Hl; [done|].
  apply Forall_cons in Hl as [Ha Hl]. unfold acts in *. simpl.
  rewrite IH by done. by apply act_keeps_cached.
Qed.

Lemma value_not_None x : value x <> PyNone.
Proof. by destruct x. Qed.

(** C1.  Scalar delivery.  For each of Code, SessionKey, Verifier and
    VersionInfo: on a facade that has not been closed and has not yet been
    given the value, [n] requests in a row ([when_code], [when_key],
    [when_verified], [when_version]) return [n] new Deferreds, all waiting
    and queued behind the earlier ones in the order of the calls; the
    delivery ([got_code], [got_key], [got_verifier], [got_version]) then
    fires every queued Deferred with the delivered value, in that order, and
    empties the queue; and after any further calls and events other than
    [closed] and a second delivery of the same event, a request returns a
    new Deferred that has already fired with the same value, and queues
    nothing. *)
Theorem scalar_delivery (imp : Imports) (x : scalar) (n : nat) (w0 : World)
    (later : list action) :
  tidy w0 -> is_open w0 -> cached x (self w0) = PyNone ->
  Forall (fun a => delivers x a = false) later ->
  exists ds w1 w2 w4,
    times n (when x) w0 = (Ok ds, w1) /\
    length ds = n /\ NoDup ds /\
    Forall (fun d => heap w0 !! d = None /\ heap w1 !! d = Some Pending) ds /\
    waiters x (self w1) = waiters x (self w0) ++ ds /\
    got x w1 = (Ok tt, w2) /\
    Forall (fun d => heap w2 !! d = Some (Fired (Succeeded (value x))))
      (waiters x (self w1)) /\
    trace w2 =
      trace w1 ++ map (fun d => (d, Succeeded (value x))) (waiters x (self w1)) /\
    waiters x (self w2) = [] /\
    let w3 := acts imp later w2 in
    when x w3 = (Ok (length (heap w3)), w4) /\
    heap w4 = heap w3 ++ [Fired (Succeeded (value x))] /\
    trace w4 = trace w3 ++ [(length (heap w3), Succeeded (value x))] /\
    self w4 = self w3.
Proof.
  intros Ht0 Ho0 Hc0 Hlater.
  destruct (times_when x n w0 Ht0 Ho0 Hc0) as (w1 & Hrun & Hh1 & Htr1 & Hq1 & Ht1 & Ho1 & Hc1).
  destruct (got_delivers x w1 Ht1) as (w2 & Hgot & Hh2 & Htr2 & Hq2 & Hc2 & Hr2 & Hperm).
  assert (is_open w2) as Ho2 by (unfold is_open in *; congruence).
  assert (tidy w2) as Ht2 by (by eapply tidy_remove).
  destruct (acts_keep_tidy imp later w2 Ho2 Ht2) as [Ho3 Ht3].
  pose proof (acts_keep_cached imp x later w2 Hlater) as Hc3. rewrite Hc2 in Hc3.
  eexists (seq (length (heap w0)) n), w1, w2, _.
  split_and!; try done.
  - apply length_seq.
  - apply NoDup_seq.
  - rewrite Forall_forall. intros d Hd. apply elem_of_seq in Hd. rewrite Hh1. split.
    + apply lookup_ge_None_2. lia.
    + rewrite lookup_app_r by lia. apply lookup_replicate_2. lia.
  - rewrite Forall_forall. intros d Hd. rewrite Hh2.
    apply fire_all_fired; [done|].
    apply observers_lt; [done|]. rewrite Hperm. set_solver.
  - cbv zeta. rewrite when_known; [|done|rewrite Hc3; apply value_not_None].
    rewrite Hc3. by split_and!.
Qed.

Lemma scalar_delivery_witness :
  exists ds w1 w2 w4,
    times 3 (when (Code "4-purple-sausages")) (mkWorld [] [] __init__) = (Ok ds, w1) /\
    got (Code "4-purple-sausages") w1 = (Ok tt, w2) /\
    trace w2 = map (fun d => (d, Succeeded (PyStr "4-purple-sausages"))) [0; 1; 2] /\
    when_code (acts sample_imports [do_received []; do_got (SessionKey [])] w2) = (Ok 3, w4) /\
    heap w4 !! 3 = Some (Fired (Succeeded (PyStr "4-purple-sausages"))).
Proof.
  destruct (scalar_delivery sample_imports (Code "4-purple-sausages") 3 (mkWorld [] [] __init__)
              [do_received []; do_got (SessionKey [])])
    as (ds & w1 & w2 & w4 & Hrun & _ & _ & _ & _ & Hgot & _ & Htr & _ & Hw & Hh & _).
  - apply fresh_tidy.
  - reflexivity.
  - reflexivity.
  - repeat constructor.
  - exists ds, w1, w2, w4. vm_compute in Hrun. injection Hrun as <- <-.
    vm_compute in Hgot. injection Hgot as <-.
    vm_compute in Hw. injection Hw as <-.
    split_and!; reflexivity.
Defined.


Lemma times_close n w b :
  tidy w -> truthy (_closed_result (self w)) = false -> _boss (self w) = Some b ->
  exists w',
    times n close w = (Ok (seq (length (heap w)) n), w') /\
    heap w' = heap w ++ replicate n Pending /\
    trace w' = trace w /\
    _closed_observers (self w') = _closed_observers (self w) ++ seq (length (heap w)) n /\
    readers (self w') = readers (self w) /\
    _boss (self w') = Some (Nat.iter n (boss_receive B_close) b) /\
    tidy w'.
Proof.
  revert w b. induction n as [|n IH]; intros w b Ht Hc Hb.
  - exists w. simpl. unfold ret. rewrite !app_nil_r. by split_and!.
  - pose proof (close_registers w b Hc Hb) as Hw.
    match type of Hw with _ = (_, ?w1') => set (w1 := w1') in * end.
    assert (tidy w1) as Ht1.
    { eapply tidy_add; [done|reflexivity|].
      unfold observers, readers. simpl. solve_Permutation. }
    destruct (IH w1 (boss_receive B_close b) Ht1 Hc eq_refl)
      as (w2 & Hrun & Hh2 & Htr2 & Hq2 & Hr2 & Hb2 & Ht2).
    exists w2. simpl times. unfold bind at 1. rewrite Hw. unfold bind at 1. rewrite Hrun.
    simpl in *. rewrite length_app in *. simpl in *. rewrite Nat.add_1_r in *.
    unfold ret. split_and!; try done.
    + by rewrite Hh2, <- app_assoc.
    + by rewrite Hq2, <- app_assoc.
    + rewrite Hb2. f_equal. clear. induction n; simpl; congruence.
Qed.

Lemma closed_fires result w :
  tidy w ->
  exists w',
    closed result w = (Ok tt, w') /\
    Forall (fun d => heap w' !! d = Some (Fired (told_closers result)))
      (_closed_observers (self w)) /\
    Forall (fun d => heap w' !! d = Some (Fired (told_readers result)))
      (readers (self w)) /\
    self w' =
      upd_closed_result (if is_Exception result then PyFailure result else result)
        (upd_observer_result
           (if is_Exception result then PyFailure result else WormholeClosed result)
           (self w)).
Proof.
  intros Ht. rewrite closed_delivers by done. eexists. split; [reflexivity|]. simpl.
  assert (forall d, d ∈ observers (self w) -> d < length (heap w)) as Hlt
    by (intros d; by apply observers_lt).
  destruct Ht as [Hnd _]. unfold observers in *.
  apply NoDup_app in Hnd as (_ & Hdis & _).
  split_and!; [| |done]; rewrite Forall_forall; intros d Hd.
  - apply fire_all_fired; [done|]. rewrite length_fire_all. apply Hlt. set_solver.
  - rewrite fire_all_other by (by apply Hdis).
    apply fire_all_fired; [done|]. apply Hlt. set_solver.
Qed.

(** C3.  Clean close.  On a facade with its Boss, to which [closed] has not
    been delivered, let [close()] be called [n] times, and let then
    [closed(result)] arrive with a plain value (neither an exception nor a
    Failure).  Every Deferred [close()] returned, those [n] and the earlier
    ones, fires with [result] itself; every Deferred still waiting for a
    code, key, verifier, versions or message fails with
    [WormholeClosed(result)]. *)
Theorem clean_close (result : pyval) (n : nat) (w0 : World) (b : Boss) :
  tidy w0 -> _closed_result (self w0) = PyNone -> _boss (self w0) = Some b ->
  is_Exception result = false -> (forall e, result <> PyFailure e) ->
  exists ds w1 w2,
    times n close w0 = (Ok ds, w1) /\ length ds = n /\
    Forall (fun d => heap w1 !! d = Some Pending)
      (_closed_observers (self w0) ++ ds ++ readers (self w0)) /\
    closed result w1 = (Ok tt, w2) /\
    Forall (fun d => heap w2 !! d = Some (Fired (Succeeded result)))
      (_closed_observers (self w0) ++ ds) /\
    Forall (fun d => heap w2 !! d = Some (Fired (Failed (WormholeClosed result))))
      (readers (self w0)).
Proof.
  intros Ht0 Hc0 Hb0 Hex Hplain.
  assert (truthy (_closed_result (self w0)) = false) as Hf by (by rewrite Hc0).
  destruct (times_close n w0 b Ht0 Hf Hb0) as (w1 & Hrun & Hh1 & Htr1 & Hq1 & Hr1 & Hb1 & Ht1).
  destruct (closed_fires result w1 Ht1) as (w2 & Hcl & Hclosers & Hreaders & _).
  exists (seq (length (heap w0)) n), w1, w2.
  unfold told_closers, told_readers in *. rewrite Hex in *.
  assert (callback_outcome result = Succeeded result) as Hcb
    by (destruct result; try done; by destruct (Hplain result)).
  rewrite Hcb, Hq1, Hr1 in *.
  split_and!; try done.
  - apply length_seq.
  - destruct Ht1 as [_ Hp]. unfold observers in Hp. rewrite Hq1, Hr1 in Hp.
    rewrite Forall_forall in *. intros d Hd. apply Hp. set_solver.
Qed.

(** C4.  Failed close.  On a facade with its Boss, to which [closed] has not
    been delivered, let [close()] be called [n] times, and let then
    [closed(f)] arrive with an exception [f].  Every Deferred [close()]
    returned and every Deferred still waiting for a code, key, verifier,
    versions or message fails with [f] itself. *)
Theorem failed_close (f : pyval) (n : nat) (w0 : World) (b : Boss) :
  tidy w0 -> _closed_result (self w0) = PyNone -> _boss (self w0) = Some b ->
  is_Exception f = true ->
  exists ds w1 w2,
    times n close w0 = (Ok ds, w1) /\ length ds = n /\
    Forall (fun d => heap w1 !! d = Some Pending)
      (_closed_observers (self w0) ++ ds ++ readers (self w0)) /\
    closed f w1 = (Ok tt, w2) /\
    Forall (fun d => heap w2 !! d = Some (Fired (Failed f)))
      (_closed_observers (self w0) ++ ds ++ readers (self w0)).
Proof.
  intros Ht0 Hc0 Hb0 Hex.
  assert (truthy (_closed_result (self w0)) = false) as Hf by (by rewrite Hc0).
  destruct (times_close n w0 b Ht0 Hf Hb0) as (w1 & Hrun & Hh1 & Htr1 & Hq1 & Hr1 & Hb1 & Ht1).
  destruct (closed_fires f w1 Ht1) as (w2 & Hcl & Hclosers & Hreaders & _).
  exists (seq (length (heap w0)) n), w1, w2.
  unfold told_closers, told_readers in *. rewrite Hex, Hq1, Hr1 in *.
  split_and!; try done.
  - apply length_seq.
  - destruct Ht1 as [_ Hp]. unfold observers in Hp. rewrite Hq1, Hr1 in Hp.
    rewrite Forall_forall in *. intros d Hd. apply Hp. set_solver.
  - rewrite app_assoc. apply Forall_app. by split.
Qed.


Lemma stream_length ops w0 ds w :
  stream ops w0 = (Some ds, w) -> length ds = requests ops.
Proof.
  revert w0 ds. induction ops as [|op ops IH]; intros w0 ds H; simpl in H.
  - by injection H as <- _.
  - destruct op as [m|].
    + destruct (received m w0) as [[] w1]; [|done]. by apply (IH w1).
    + destruct (when_received w0) as [[d|] w1]; [|done].
      destruct (stream ops w1) as [[ds'|] w2] eqn:E; [|done].
      injection H as <- <-. unfold requests in *. simpl. f_equal. by apply (IH w1).
Qed.

(** C2.  Message FIFO.  On a facade to which [closed] has not been
    delivered: a [when_received()] that finds the buffer non-empty returns a
    Deferred already fired with the oldest buffered message and removes that
    message; a [received(m)] that finds requests waiting fires the oldest of
    them with [m] and removes it.  Hence, from a facade with nothing
    buffered and nobody waiting, after any interleaving of arrivals and
    requests no call has raised, the i-th request has fired with the i-th
    arrival when there is one and waits otherwise, the firings happened in
    that order, what is left buffered is the arrivals beyond the requests,
    and who is left waiting is the requests beyond the arrivals.  In
    particular three arrivals [m1; m2; m3] followed by two requests give
    [m1] and [m2] and leave [m3] buffered, and two requests followed by
    arrivals [m1; m2; ...] get [m1] and [m2], in this order. *)
Theorem message_fifo (w0 : World) :
  tidy w0 -> is_open w0 ->
  _received_data (self w0) = [] -> _received_observers (self w0) = [] ->
  (forall w m rest,
     is_open w -> _received_data (self w) = m :: rest ->
     exists w',
       when_received w = (Ok (length (heap w)), w') /\
       heap w !! length (heap w) = None /\
       heap w' !! length (heap w) = Some (Fired (Succeeded (PyBytes m))) /\
       _received_data (self w') = rest /\
       _received_observers (self w') = _received_observers (self w)) /\
  (forall w m d rest,
     tidy w -> _received_observers (self w) = d :: rest ->
     exists w',
       received m w = (Ok tt, w') /\
       heap w !! d = Some Pending /\
       heap w' !! d = Some (Fired (Succeeded (PyBytes m))) /\
       _received_observers (self w') = rest /\
       _received_data (self w') = _received_data (self w)) /\
  (forall ops,
     exists ds w,
       stream ops w0 = (Some ds, w) /\
       length ds = requests ops /\
       (forall i d, ds !! i = Some d ->
          heap w !! d = Some match arrivals ops !! i with
                             | Some m => Fired (Succeeded (PyBytes m))
                             | None => Pending
                             end) /\
       trace w = trace w0 ++
         zip_with (fun d m => (d, Succeeded (PyBytes m))) ds (arrivals ops) /\
       _received_data (self w) = drop (length ds) (arrivals ops) /\
       _received_observers (self w) = drop (length (arrivals ops)) ds) /\
  (forall m1 m2 m3,
     exists d1 d2 w,
       stream [arrives m1; arrives m2; arrives m3; asks; asks] w0 = (Some [d1; d2], w) /\
       heap w !! d1 = Some (Fired (Succeeded (PyBytes m1))) /\
       heap w !! d2 = Some (Fired (Succeeded (PyBytes m2))) /\
       trace w = trace w0 ++ [(d1, Succeeded (PyBytes m1)); (d2, Succeeded (PyBytes m2))] /\
       _received_data (self w) = [m3]) /\
  (forall m1 m2 more,
     exists d1 d2 w,
       stream ([asks; asks] ++ map arrives (m1 :: m2 :: more)) w0 = (Some [d1; d2], w) /\
       heap w !! d1 = Some (Fired (Succeeded (PyBytes m1))) /\
       heap w !! d2 = Some (Fired (Succeeded (PyBytes m2))) /\
       trace w = trace w0 ++ [(d1, Succeeded (PyBytes m1)); (d2, Succeeded (PyBytes m2))] /\
       _received_data (self w) = more /\
       _received_observers (self w) = []).
Proof.
  intros Ht0 Ho0 Hd0 Hq0.
  assert (forall ops,
     exists ds w,
       stream ops w0 = (Some ds, w) /\
       length ds = requests ops /\
       (forall i d, ds !! i = Some d ->
          heap w !! d = Some match arrivals ops !! i with
                             | Some m => Fired (Succeeded (PyBytes m))
                             | None => Pending
                             end) /\
       trace w = trace w0 ++
         zip_with (fun d m => (d, Succeeded (PyBytes m))) ds (arrivals ops) /\
       _received_data (self w) = drop (length ds) (arrivals ops) /\
       _received_observers (self w) = drop (length (arrivals ops)) ds) as Hany.
  { intros ops.
    destruct (stream_invariant ops w0 Ht0 Ho0 (or_introl Hd0))
      as (ds & w & Hrun & Ht & Ho & Hdata & Hobs & Htr & Hheap).
    rewrite Hd0, Hq0 in *. simpl in *.
    exists ds, w. split_and!; try done.
    - by eapply stream_length.
    - intros i d Hd. destruct (arrivals ops !! i) as [m|] eqn:Hm.
      + by eapply Hheap.
      + destruct Ht as [_ Hp]. rewrite Forall_forall in Hp. apply Hp.
        unfold observers, readers. rewrite Hobs.
        apply lookup_ge_None_1 in Hm.
        assert (drop (length (arrivals ops)) ds !! (i - length (arrivals ops)) = Some d) as Hin.
        { rewrite lookup_drop. rewrite <- Hd. f_equal. lia. }
        apply list_elem_of_lookup_2 in Hin. set_solver. }
  split_and!; [| |done| |].
  - intros w m rest Ho Hd. rewrite (when_received_from_buffer w m rest) by done.
    eexists. split; [reflexivity|]. simpl. split_and!; try done.
    + by apply lookup_ge_None_2.
    + rewrite lookup_app_r by lia. by rewrite Nat.sub_diag.
  - intros w m d rest Ht Hq. rewrite (received_to_waiter m w d rest) by done.
    assert (heap w !! d = Some Pending) as Hp.
    { destruct Ht as [_ Hp]. rewrite Forall_forall in Hp. apply Hp.
      unfold observers, readers. rewrite Hq. set_solver. }
    eexists. split; [reflexivity|]. simpl. split_and!; try done.
    apply list_lookup_insert_eq. by eapply lookup_lt_Some.
  - intros m1 m2 m3.
    destruct (Hany [arrives m1; arrives m2; arrives m3; asks; asks])
      as (ds & w & Hrun & Hlen & Hheap & Htr & Hdata & Hobs).
    destruct ds as [|d1 [|d2 [|]]]; try discriminate Hlen.
    exists d1, d2, w. split_and!; try done.
    + by apply (Hheap 0).
    + by apply (Hheap 1).
  - intros m1 m2 more. set (ops := [asks; asks] ++ map arrives (m1 :: m2 :: more)).
    assert (arrivals (map arrives more) = more) as Harr.
    { clear. induction more as [|m more IH]; [done|].
      change (m :: arrivals (map arrives more) = m :: more). by rewrite IH. }
    assert (requests (map arrives more) = 0) as Hreq.
    { clear. induction more as [|m more IH]; [done|].
      change (requests (map arrives more) = 0). done. }
    assert (arrivals ops = m1 :: m2 :: more) as Harr'.
    { change (m1 :: m2 :: arrivals (map arrives more) = m1 :: m2 :: more). by rewrite Harr. }
    assert (requests ops = 2) as Hreq'.
    { change (S (S (requests (map arrives more))) = 2). by rewrite Hreq. }
    destruct (Hany ops) as (ds & w & Hrun & Hlen & Hheap & Htr & Hdata & Hobs).
    rewrite Harr' in Hheap, Htr, Hdata, Hobs. rewrite Hreq' in Hlen.
    destruct ds as [|d1 [|d2 [|]]]; try discriminate Hlen.
    exists d1, d2, w. split_and!; try done.
    + by apply (Hheap 0).
    + by apply (Hheap 1).
    + rewrite Hobs. simpl. apply drop_nil.
Qed.


Lemma sample_world_tidy : is_open sample_world /\ tidy sample_world.
Proof. split; [reflexivity|]. split; [apply NoDup_nil_2|apply Forall_nil_2]. Qed.

Lemma message_fifo_witness :
  exists d1 d2 w,
    stream [arrives ["a"%byte]; arrives []; arrives ["c"%byte]; asks; asks] sample_world
      = (Some [d1; d2], w) /\
    heap w !! d1 = Some (Fired (Succeeded (PyBytes ["a"%byte]))) /\
    heap w !! d2 = Some (Fired (Succeeded (PyBytes []))) /\
    trace w = trace sample_world ++
              [(d1, Succeeded (PyBytes ["a"%byte])); (d2, Succeeded (PyBytes []))] /\
    _received_data (self w) = [["c"%byte]].
Proof.
  destruct (message_fifo sample_world) as (_ & _ & _ & H & _).
  - apply sample_world_tidy.
  - reflexivity.
  - reflexivity.
  - reflexivity.
  - exact (H ["a"%byte] [] ["c"%byte]).
Defined.

(** A facade on which a code and a message are awaited. *)
Lemma waiting_world_tidy :
  tidy (acts sample_imports [do_when (Code ""); do_when_received] sample_world).
Proof. apply acts_keep_tidy; apply sample_world_tidy. Qed.

Lemma clean_close_witness :
  exists w2,
    snd (bind (times 2 close) (fun _ => closed (PyStr "happy"))
           (acts sample_imports [do_when (Code ""); do_when_received] sample_world)) = w2 /\
    heap w2 = [Fired (Failed (WormholeClosed (PyStr "happy")));
               Fired (Failed (WormholeClosed (PyStr "happy")));
               Fired (Succeeded (PyStr "happy"));
               Fired (Succeeded (PyStr "happy"))].
Proof.
  destruct (clean_close (PyStr "happy") 2
              (acts sample_imports [do_when (Code ""); do_when_received] sample_world)
              (mkBoss "0717273747" "ws://relay.magic-wormhole.io:4000/v1"
                 "lothar.com/wormhole/text-or-file-xfer"
                 (<["app_versions" := PyDict []]> ∅)
                 (handle_welcome "ws://relay.magic-wormhole.io:4000/v1")
                 (PyObj "reactor" true) ImmediateJournal PyNone DebugTiming [B_start]))
    as (ds & w1 & w2 & Hrun & _ & _ & Hcl & _).
  - apply waiting_world_tidy.
  - reflexivity.
  - reflexivity.
  - reflexivity.
  - discriminate.
  - exists w2. unfold bind. rewrite Hrun, Hcl. split; [reflexivity|].
    vm_compute in Hrun. injection Hrun as <- <-.
    vm_compute in Hcl. by injection Hcl as <-.
Defined.

Lemma failed_close_witness :
  exists w2,
    snd (bind (times 1 close) (fun _ => closed (PyExc "WrongPasswordError" [] true))
           (acts sample_imports [do_when (Code ""); do_when_received] sample_world)) = w2 /\
    heap w2 = [Fired (Failed (PyExc "WrongPasswordError" [] true));
               Fired (Failed (PyExc "WrongPasswordError" [] true));
               Fired (Failed (PyExc "WrongPasswordError" [] true))].
Proof.
  destruct (failed_close (PyExc "WrongPasswordError" [] true) 1
              (acts sample_imports [do_when (Code ""); do_when_received] sample_world)
              (mkBoss "0717273747" "ws://relay.magic-wormhole.io:4000/v1"
                 "lothar.com/wormhole/text-or-file-xfer"
                 (<["app_versions" := PyDict []]> ∅)
                 (handle_welcome "ws://relay.magic-wormhole.io:4000/v1")
                 (PyObj "reactor" true) ImmediateJournal PyNone DebugTiming [B_start]))
    as (ds & w1 & w2 & Hrun & _ & _ & Hcl & _).
  - apply waiting_world_tidy.
  - reflexivity.
  - reflexivity.
  - reflexivity.
  - exists w2. unfold bind. rewrite Hrun, Hcl. split; [reflexivity|].
    vm_compute in Hrun. injection Hrun as <- <-.
    vm_compute in Hcl. by injection Hcl as <-.
Defined.


(** ** After [closed] *)

Lemma closed_result_not_None result :
  is_not_None (if is_Exception result then PyFailure result else WormholeClosed result) = true.
Proof. by destruct (is_Exception result). Qed.

Lemma errback_outcome_closed result :
  errback_outcome (if is_Exception result then PyFailure result else WormholeClosed result)
  = told_readers result.
Proof. unfold told_readers. by destruct (is_Exception result). Qed.

(** The closed state is absorbing for readers: whatever was cached or
    buffered, and whatever happens afterwards short of a second [closed],
    a request for a value or for a message returns a Deferred that has
    already failed with what readers are told, and consumes nothing. *)
Lemma closed_is_absorbing imp result w later :
  let w2 := acts imp later (snd (closed result w)) in
  (forall x,
     when x w2 =
     (Ok (length (heap w2)),
      mkWorld (heap w2 ++ [Fired (told_readers result)])
              (trace w2 ++ [(length (heap w2), told_readers result)]) (self w2))) /\
  when_received w2 =
  (Ok (length (heap w2)),
   mkWorld (heap w2 ++ [Fired (told_readers result)])
           (trace w2 ++ [(length (heap w2), told_readers result)]) (self w2)).
Proof.
  intros w2.
  assert (_observer_result (self w2) =
          if is_Exception result then PyFailure result else WormholeClosed result) as Hr.
  { unfold w2. by rewrite acts_keep_result, closed_sets_result. }
  split; [intros x; rewrite when_after_closed|rewrite when_received_after_closed];
    rewrite Hr; try apply closed_result_not_None;
    unfold fail, fired; by rewrite errback_outcome_closed.
Qed.

(** Once an outcome that Python takes for true has been recorded, [close()]
    may be called any number of times: each call returns a Deferred already
    fired with that outcome and leaves the facade, its Boss included, as it
    was. *)
Lemma close_is_idempotent n w :
  truthy (_closed_result (self w)) = true ->
  let o := callback_outcome (_closed_result (self w)) in
  let ds := seq (length (heap w)) n in
  times n close w =
  (Ok ds, mkWorld (heap w ++ replicate n (Fired o))
                  (trace w ++ map (fun d => (d, o)) ds) (self w)).
Proof.
  revert w. induction n as [|n IH]; intros w Hc; cbv zeta.
  - simpl. unfold ret. rewrite !app_nil_r. by destruct w.
  - simpl times. unfold bind at 1. rewrite (close_cached w Hc).
    unfold bind at 1. rewrite IH by done. cbv zeta. simpl.
    rewrite length_app. simpl. rewrite Nat.add_1_r.
    unfold ret. by rewrite <- !app_assoc.
Qed.

(** C5.  [close()] after a close outcome that Python takes for false.  The
    facade [create] returns is told [closed("")]; the outcome is recorded,
    readers are turned away from then on; yet the next [close()] does not
    return the recorded outcome: it returns a new Deferred that waits, keeps
    it as a close observer, and sends the Boss [close] once more. *)
Theorem close_after_empty_outcome :
  exists w1 w2 b,
    closed (PyStr "") sample_world = (Ok tt, w1) /\
    _closed_result (self w1) = PyStr "" /\
    _observer_result (self w1) = WormholeClosed (PyStr "") /\
    close w1 = (Ok 0, w2) /\
    heap w2 = [Pending] /\
    _closed_observers (self w2) = [0] /\
    _boss (self w2) = Some b /\ boss_calls b = [B_start; B_close].
Proof.
  eexists _, _, _. split_and!; try reflexivity.
  all: vm_compute; reflexivity.
Qed.

(** C7.  After [closed(None)] readers are turned away but [close()] has
    nothing to report.  The facade [create] returns is given a code and a
    message and is then told [closed(None)]: [when_code()] and
    [when_received()] return Deferreds that have failed with
    [WormholeClosed(None)], and [close()] returns a Deferred that waits. *)
Theorem closed_None_close_waits :
  let w1 := snd (closed PyNone
                   (acts sample_imports [do_got (Code "7-crossover-clockwork");
                                          do_received ["h"%byte; "i"%byte]] sample_world)) in
  exists d1 d2 d3 w2 w3 w4,
    when_code w1 = (Ok d1, w2) /\
    when_received w2 = (Ok d2, w3) /\
    close w3 = (Ok d3, w4) /\
    heap w4 !! d1 = Some (Fired (Failed (WormholeClosed PyNone))) /\
    heap w4 !! d2 = Some (Fired (Failed (WormholeClosed PyNone))) /\
    heap w4 !! d3 = Some Pending /\
    _closed_result (self w4) = PyNone.
Proof.
  eexists _, _, _, _, _, _. split_and!; try reflexivity.
  all: vm_compute; reflexivity.
Qed.


(** ** [derive_key], case by case *)

Lemma derive_key_not_text imp purpose n w :
  is_text purpose = false ->
  derive_key imp purpose n w = (Raise (TypeError (type_of purpose)), w).
Proof. by destruct purpose. Qed.

Lemma derive_key_no_key imp p n w :
  truthy (py_of_bytes (_key (self w))) = false ->
  derive_key imp (PyStr p) n w = (Raise NoKeyError, w).
Proof. intros H. unfold derive_key, bind, get, raise. simpl. by rewrite H. Qed.

Lemma derive_key_with_key imp p n w k :
  _key (self w) = Some k -> k <> [] ->
  derive_key imp (PyStr p) n w = (key_derive_key imp k (to_bytes imp p) n, w).
Proof.
  intros Hk Hne. unfold derive_key, bind, get, raise, ret. simpl. rewrite Hk.
  destruct k as [|b k]; [done|]. simpl.
  by destruct (key_derive_key imp _ _ _).
Qed.

Lemma got_key_caches key w : _key (self (snd (got_key key w))) = Some key.
Proof.
  unfold got_key. unfold bind at 1. unfold put at 1. simpl.
  match goal with |- _ (self (snd (?m ?w'))) = _ =>
    transitivity (_key (self w')); [|done];
    generalize w'; change (keeps _key m) end.
  keeps_tac.
Qed.

End DeferredFacts.

(** * Facts about the facade that calls a delegate *)

Module DelegatedFacts.
Import Delegated.

(** ** [derive_key], case by case *)

Lemma delegate_derive_key_not_text imp purpose n w :
  is_text purpose = false ->
  derive_key imp purpose n w = (Raise (TypeError (type_of purpose)), w).
Proof. by destruct purpose. Qed.

Lemma delegate_derive_key_no_key imp p n w :
  truthy (py_of_bytes (_key (self w))) = false ->
  derive_key imp (PyStr p) n w = (Raise NoKeyError, w).
Proof. intros H. unfold derive_key, bind, get, raise. simpl. by rewrite H. Qed.

Lemma delegate_derive_key_with_key imp p n w k :
  _key (self w) = Some k -> k <> [] ->
  derive_key imp (PyStr p) n w = (key_derive_key imp k (to_bytes imp p) n, w).
Proof.
  intros Hk Hne. unfold derive_key, bind, get, raise, ret. simpl. rewrite Hk.
  destruct k as [|b k]; [done|]. simpl.
  by destruct (key_derive_key imp _ _ _).
Qed.

(** ** What a handler can and cannot do *)

Lemma to_boss_keeps_key c w : _key (self (snd (to_boss c w))) = _key (self w).
Proof.
  unfold to_boss, bind, get, put, raise. simpl. by destruct (_boss (self w)).
Qed.

Lemma delegate_derive_key_world imp purpose n w : snd (derive_key imp purpose n w) = w.
Proof.
  destruct purpose; try done.
  unfold derive_key, bind, get, raise, ret. simpl.
  destruct (_key (self w)) as [[|b k]|]; simpl; try done.
  by destruct (key_derive_key imp _ _ _).
Qed.

Lemma perform_keeps_key imp c w :
  _key (self (snd (perform imp c w))) = _key (self w).
Proof.
  destruct c; simpl; try by rewrite delegate_derive_key_world.
  2: { unfold input_code, bind, get, put, ret, raise. simpl. by destruct (_boss (self w)). }
  all: unfold returning_None, allocate_code, set_code, send, close,
         debug_set_trace, bind, ret;
       match goal with |- context [to_boss ?c ?w0] =>
         pose proof (to_boss_keeps_key c w0) as H; destruct (to_boss c w0) as [[] w'] end;
       done.
Qed.

Lemma perform_seen imp c w : seen (snd (perform imp c w)) = seen w.
Proof.
  destruct c; simpl; try by rewrite delegate_derive_key_world.
  all: unfold returning_None, allocate_code, input_code, set_code, send, close,
         debug_set_trace, to_boss, bind, get, put, raise, ret; simpl;
       by destruct (_boss (self w)).
Qed.

Lemma run_keeps_key imp h w : _key (self (snd (run imp h w))) = _key (self w).
Proof.
  revert w. induction h as [| e | c k IH]; intros w; simpl; try done.
  pose proof (perform_keeps_key imp c w) as Hp.
  destruct (perform imp c w) as [r w']. simpl in Hp. by rewrite IH.
Qed.

(** Running a handler plays it to its end: the calls it made are added to
    the log with what each got back, and the run ends as the handler
    does. *)
Lemma run_played imp h w :
  exists new,
    seen (snd (run imp h w)) = seen w ++ new /\
    played h new (fst (run imp h w)).
Proof.
  revert w. induction h as [| e | c k IH]; intros w; simpl.
  - exists []. rewrite app_nil_r. split; [done|constructor].
  - exists []. rewrite app_nil_r. split; [done|constructor].
  - pose proof (perform_seen imp c w) as Hseen.
    destruct (perform imp c w) as [r w'] eqn:Hp. simpl in Hseen.
    destruct (IH r (saw c r w')) as (new & Hnew & Hplayed).
    exists ((c, r) :: new). split.
    + rewrite Hnew. simpl. rewrite Hseen. by rewrite <- app_assoc.
    + by constructor.
Qed.

(** While no key is cached, whatever the handler does, each of its calls of
    [derive_key] is answered with [NoKeyError], or with [TypeError] when
    the purpose is not a text. *)
Lemma run_without_key imp h w :
  _key (self w) = None ->
  exists new,
    seen (snd (run imp h w)) = seen w ++ new /\
    played h new (fst (run imp h w)) /\
    Forall (fun cr => forall purpose n,
              cr.1 = A_derive_key purpose n ->
              cr.2 = Raise (if is_text purpose then NoKeyError
                            else TypeError (type_of purpose))) new.
Proof.
  revert w. induction h as [| e | c k IH]; intros w Hk; simpl.
  - exists []. rewrite app_nil_r. split_and!; [done|constructor|done].
  - exists []. rewrite app_nil_r. split_and!; [done|constructor|done].
  - pose proof (perform_keeps_key imp c w) as Hkey.
    pose proof (perform_seen imp c w) as Hseen.
    destruct (perform imp c w) as [r w'] eqn:Hp. simpl in Hkey, Hseen.
    destruct (IH r (saw c r w')) as (new & Hnew & Hplayed & Hall); [simpl; congruence|].
    exists ((c, r) :: new). split_and!.
    + rewrite Hnew. simpl. rewrite Hseen. by rewrite <- app_assoc.
    + by constructor.
    + apply Forall_cons. split; [|done]. simpl. intros purpose n ->.
      change (derive_key imp purpose n w = (r, w')) in Hp.
      destruct (is_text purpose) eqn:Ht.
      * destruct purpose; try discriminate Ht.
        rewrite delegate_derive_key_no_key in Hp by (by rewrite Hk). congruence.
      * rewrite delegate_derive_key_not_text in Hp by done. congruence.
Qed.

Lemma delegate_got_key_caches imp key w w1 :
  got_key imp key w = (Ok tt, w1) -> _key (self w1) = Some key.
Proof.
  unfold got_key, bind, get, put. simpl.
  destruct (run imp _ w) as [[[]|e] w']; [|done]. by intros [= <-].
Qed.

Lemma delegate_closed_keeps_key imp result w :
  _key (self (snd (closed imp result w))) = _key (self w).
Proof. unfold closed, bind, get. simpl. apply run_keeps_key. Qed.

End DelegatedFacts.

(** * Both facades, and the factory *)

(** C6.  [derive_key(purpose, length)], on either facade.  A purpose that
    is not a text string raises [TypeError] at once, the facade and its
    Boss untouched.  With a text purpose, [NoKeyError] is raised when no key
    is cached or the cached key is empty.  With a text purpose and a
    non-empty cached key, the call returns what the imported derivation
    returns (or raises) for the cached key, the purpose as bytes, and the
    length. *)
Theorem derive_key_guarded (imp : Imports) (length : Z) :
  (forall purpose w, is_text purpose = false ->
     Deferred.derive_key imp purpose length w = (Raise (TypeError (type_of purpose)), w)) /\
  (forall purpose w, is_text purpose = false ->
     Delegated.derive_key imp purpose length w = (Raise (TypeError (type_of purpose)), w)) /\
  (forall p w,
     Deferred._key (Deferred.self w) = None \/ Deferred._key (Deferred.self w) = Some [] ->
     Deferred.derive_key imp (PyStr p) length w = (Raise NoKeyError, w)) /\
  (forall p w,
     Delegated._key (Delegated.self w) = None \/ Delegated._key (Delegated.self w) = Some [] ->
     Delegated.derive_key imp (PyStr p) length w = (Raise NoKeyError, w)) /\
  (forall p w k,
     Deferred._key (Deferred.self w) = Some k -> k <> [] ->
     Deferred.derive_key imp (PyStr p) length w =
     (key_derive_key imp k (to_bytes imp p) length, w)) /\
  (forall p w k,
     Delegated._key (Delegated.self w) = Some k -> k <> [] ->
     Delegated.derive_key imp (PyStr p) length w =
     (key_derive_key imp k (to_bytes imp p) length, w)).
Proof.
  split_and!.
  - intros. by apply DeferredFacts.derive_key_not_text.
  - intros. by apply DelegatedFacts.delegate_derive_key_not_text.
  - intros p w [H|H]; apply DeferredFacts.derive_key_no_key; by rewrite H.
  - intros p w [H|H]; apply DelegatedFacts.delegate_derive_key_no_key; by rewrite H.
  - intros. by apply DeferredFacts.derive_key_with_key.
  - intros. by apply DelegatedFacts.delegate_derive_key_with_key.
Qed.

Lemma derive_key_guarded_witness :
  let w := snd (Deferred.got_key ["k"%byte] sample_world) in
  Deferred.derive_key sample_imports (PyInt 7) 32 w = (Raise (TypeError (PyStr "int")), w) /\
  Deferred.derive_key sample_imports (PyStr "p") 32 sample_world
    = (Raise NoKeyError, sample_world) /\
  Deferred.derive_key sample_imports (PyStr "p") 32 w
    = (Ok (PyBytes ["k"%byte; "p"%byte]), w).
Proof.
  destruct (derive_key_guarded sample_imports 32) as (H1 & _ & H3 & _ & H5 & _).
  split_and!.
  - apply H1. reflexivity.
  - apply H3. left. reflexivity.
  - apply (H5 "p" _ ["k"%byte]); [reflexivity|discriminate].
Defined.

(** C6, as stated, fails.  The key has been delivered and the purpose is a
    text string, yet [derive_key] raises [NoKeyError] instead of returning
    what the derivation returns: the delivered key is empty. *)
Lemma derive_key_empty_key_counterexample :
  let w := snd (Deferred.got_key [] sample_world) in
  Deferred._key (Deferred.self w) = Some [] /\
  Deferred.derive_key sample_imports (PyStr "purpose") 32 w = (Raise NoKeyError, w) /\
  key_derive_key sample_imports [] (to_bytes sample_imports "purpose") 32
    = Ok (PyBytes (list_byte_of_string "purpose")).
Proof. by split_and!. Qed.

(** C9.  [closed(result)] leaves the cached key alone on both facades, and
    so [derive_key] answers after it as it did before.  On a facade on
    which [got_key(k)] has completed with a non-empty [k], [derive_key] with
    a text purpose, called after [closed(result)], returns what the imported
    derivation returns for that same [k]. *)
Theorem key_survives_close (imp : Imports) (result : pyval) :
  (forall w, Deferred._key (Deferred.self (snd (Deferred.closed result w)))
             = Deferred._key (Deferred.self w)) /\
  (forall w, Delegated._key (Delegated.self (snd (Delegated.closed imp result w)))
             = Delegated._key (Delegated.self w)) /\
  (forall k p n w,
     k <> [] ->
     let w2 := snd (Deferred.closed result (snd (Deferred.got_key k w))) in
     Deferred.derive_key imp (PyStr p) n w2 = (key_derive_key imp k (to_bytes imp p) n, w2)) /\
  (forall k p n w w1,
     k <> [] ->
     Delegated.got_key imp k w = (Ok tt, w1) ->
     let w2 := snd (Delegated.closed imp result w1) in
     Delegated.derive_key imp (PyStr p) n w2 = (key_derive_key imp k (to_bytes imp p) n, w2)).
Proof.
  split_and!.
  - apply DeferredFacts.closed_keeps_key.
  - apply DelegatedFacts.delegate_closed_keeps_key.
  - intros k p n w Hne w2. apply DeferredFacts.derive_key_with_key; [|done].
    unfold w2. by rewrite DeferredFacts.closed_keeps_key, DeferredFacts.got_key_caches.
  - intros k p n w w1 Hne Hgot w2. apply DelegatedFacts.delegate_derive_key_with_key; [|done].
    unfold w2. rewrite DelegatedFacts.delegate_closed_keeps_key.
    by eapply DelegatedFacts.delegate_got_key_caches.
Qed.

Lemma key_survives_close_witness :
  (let w2 := snd (Deferred.closed (PyStr "happy")
                    (snd (Deferred.got_key ["k"%byte] sample_world))) in
   Deferred.derive_key sample_imports (PyStr "p") 16 w2
     = (Ok (PyBytes ["k"%byte; "p"%byte]), w2)) /\
  (exists w1,
     Delegated.got_key sample_imports ["k"%byte] sample_delegated_world = (Ok tt, w1) /\
     let w2 := snd (Delegated.closed sample_imports (PyExc "LonelyError" [] true) w1) in
     Delegated.derive_key sample_imports (PyStr "p") 16 w2
       = (Ok (PyBytes ["k"%byte; "p"%byte]), w2)).
Proof.
  split.
  - destruct (key_survives_close sample_imports (PyStr "happy")) as (_ & _ & H & _).
    apply (H ["k"%byte] "p" 16%Z sample_world). discriminate.
  - destruct (key_survives_close sample_imports (PyExc "LonelyError" [] true)) as (_ & _ & _ & H).
    eexists. split; [reflexivity|].
    apply (H ["k"%byte] "p" 16%Z sample_delegated_world); [discriminate|reflexivity].
Defined.

(** C9, as stated, fails.  [got_key(b"")] has been received before the
    close and the purpose is a text string, yet after the close
    [derive_key] does not succeed: it raises [NoKeyError].  So it does on
    the facade whose delegate raised in [wormhole_key] when [got_key(b"k")]
    was received: that key was never cached. *)
Lemma key_survives_close_counterexample :
  (let w2 := snd (Deferred.closed (PyStr "happy") (snd (Deferred.got_key [] sample_world))) in
   Deferred._key (Deferred.self w2) = Some [] /\
   Deferred.derive_key sample_imports (PyStr "purpose") 32 w2 = (Raise NoKeyError, w2)) /\
  (let w1 := snd (Delegated.got_key sample_imports ["k"%byte] sample_raising_world) in
   let w2 := snd (Delegated.closed sample_imports (PyStr "happy") w1) in
   fst (Delegated.got_key sample_imports ["k"%byte] sample_raising_world)
     = Raise (PyExc "ValueError" [] true) /\
   Delegated.derive_key sample_imports (PyStr "purpose") 32 w2 = (Raise NoKeyError, w2)).
Proof. by split_and!. Qed.

(** C10.  In the facade that calls a delegate, [got_key(key)] runs the
    delegate's [wormhole_key] first and caches the key afterwards.  On the
    first delivery (no key cached): the handler is played to its end, the
    calls it makes being answered one by one, and [got_key] ends as the
    handler ends, raising what it raises; every call of [derive_key] that
    the handler makes while it runs is answered with [NoKeyError] when its
    purpose is a text (with [TypeError] when it is not); if the handler
    raises, no key is cached; and once [got_key] has returned the key is
    cached, so that, the key being non-empty, [derive_key] with a text
    purpose returns what the imported derivation returns for the key. *)
Theorem key_cached_after_delegate (imp : Imports) (key : bytes) (w : Delegated.World) :
  Delegated._key (Delegated.self w) = None ->
  exists new,
    let out := fst (Delegated.got_key imp key w) in
    let w1 := snd (Delegated.got_key imp key w) in
    Delegated.played (wormhole_key (Delegated._delegate (Delegated.self w)) key) new out /\
    Delegated.seen w1 = Delegated.seen w ++ new /\
    Forall (fun cr => forall purpose n,
              cr.1 = A_derive_key purpose n ->
              cr.2 = Raise (if is_text purpose then NoKeyError
                            else TypeError (type_of purpose))) new /\
    (forall e, out = Raise e -> Delegated._key (Delegated.self w1) = None) /\
    (out = Ok tt ->
     Delegated._key (Delegated.self w1) = Some key /\
     (key <> [] ->
      forall p n,
        Delegated.derive_key imp (PyStr p) n w1 =
        (key_derive_key imp key (to_bytes imp p) n, w1))).
Proof.
  intros Hk.
  set (h := wormhole_key (Delegated._delegate (Delegated.self w)) key).
  pose proof (DelegatedFacts.run_keeps_key imp h w) as Hkeep.
  destruct (DelegatedFacts.run_without_key imp h w Hk) as (new & Hnew & Hplayed & Hall).
  exists new. cbv zeta.
  unfold Delegated.got_key, Delegated.bind, Delegated.get, Delegated.put. simpl. fold h.
  destruct (Delegated.run imp h w) as [[[]|e] w'] eqn:Hrun; simpl in *.
  - split_and!; try done.
    intros _. split; [done|]. intros Hne p n.
    by apply DelegatedFacts.delegate_derive_key_with_key.
  - split_and!; try done. intros e' _. congruence.
Qed.

Lemma key_cached_after_delegate_witness :
  exists w1,
    Delegated.got_key sample_imports ["k"%byte] sample_delegated_world = (Ok tt, w1) /\
    Delegated.played (wormhole_key sample_delegate ["k"%byte]) (Delegated.seen w1) (Ok tt) /\
    Delegated.seen w1 = [(A_derive_key (PyStr "early") 32, Raise NoKeyError)] /\
    Delegated.derive_key sample_imports (PyStr "late") 32 w1
      = (Ok (PyBytes (["k"%byte] ++ list_byte_of_string "late")), w1).
Proof.
  destruct (key_cached_after_delegate sample_imports ["k"%byte] sample_delegated_world)
    as (new & Hplayed & Hseen & _ & _ & H); [reflexivity|].
  eexists. split; [reflexivity|]. split_and!.
  - vm_compute in Hseen. rewrite <- Hseen in Hplayed. exact Hplayed.
  - reflexivity.
  - apply H; [reflexivity|discriminate].
Defined.

(** C10, as stated, fails.  [got_key(b"")] has returned and the key is
    cached, yet a later [derive_key] with a text purpose does not succeed:
    it raises [NoKeyError].  And a [derive_key] whose purpose is given as
    bytes raises [TypeError], not a no-key error, when the handler makes it
    during the first delivery, and does not succeed after [got_key] has
    returned with a non-empty key. *)
Lemma key_cached_after_delegate_counterexample :
  (exists w1,
     Delegated.got_key sample_imports [] sample_delegated_world = (Ok tt, w1) /\
     Delegated._key (Delegated.self w1) = Some [] /\
     Delegated.derive_key sample_imports (PyStr "late") 32 w1 = (Raise NoKeyError, w1)) /\
  (exists w1,
     Delegated.got_key sample_imports ["k"%byte] sample_bytes_world = (Ok tt, w1) /\
     Delegated.seen w1 =
       [(A_derive_key (PyBytes (list_byte_of_string "early")) 32,
         Raise (TypeError (PyStr "bytes")))] /\
     Delegated._key (Delegated.self w1) = Some ["k"%byte] /\
     Delegated.derive_key sample_imports (PyBytes (list_byte_of_string "late")) 32 w1
       = (Raise (TypeError (PyStr "bytes")), w1)).
Proof. split; eexists; by split_and!. Qed.

(** ** The factory *)

Lemma hex_of_byte_back b :
  exists hi lo,
    hex_of_byte b = String hi (String lo EmptyString) /\
    hex_value hi = Some (Byte.to_N b / 16)%N /\
    hex_value lo = Some (Byte.to_N b mod 16)%N.
Proof. destruct b; eexists _, _; by split_and!. Qed.

Lemma hexstr_to_bytes_pair hi lo rest :
  hexstr_to_bytes (String hi (String lo rest)) =
  match hex_value hi, hex_value lo, hexstr_to_bytes rest with
  | Some h, Some l, Some bs =>
      match Byte.of_N (16 * h + l) with
      | Some b => Some (b :: bs)
      | None => None
      end
  | _, _, _ => None
  end.
Proof. reflexivity. Qed.

Lemma bytes_to_hexstr_back bs : hexstr_to_bytes (bytes_to_hexstr bs) = Some bs.
Proof.
  induction bs as [|b bs IH]; [done|].
  change (bytes_to_hexstr (b :: bs))
    with (String.append (hex_of_byte b) (bytes_to_hexstr bs)).
  destruct (hex_of_byte_back b) as (hi & lo & -> & Hhi & Hlo).
  change (String.append (String hi (String lo EmptyString)) (bytes_to_hexstr bs))
    with (String hi (String lo (bytes_to_hexstr bs))).
  rewrite hexstr_to_bytes_pair, Hhi, Hlo, IH.
  replace (16 * (Byte.to_N b / 16) + Byte.to_N b mod 16)%N with (Byte.to_N b)
    by (rewrite (N.div_mod (Byte.to_N b) 16) at 1; [done|lia]).
  by rewrite Byte.of_to_N.
Qed.

Lemma bytes_to_hexstr_length bs : String.length (bytes_to_hexstr bs) = 2 * length bs.
Proof.
  induction bs as [|b bs IH]; [done|].
  change (bytes_to_hexstr (b :: bs))
    with (String.append (hex_of_byte b) (bytes_to_hexstr bs)).
  destruct (hex_of_byte_back b) as (hi & lo & -> & _).
  change (S (S (String.length (bytes_to_hexstr bs))) = 2 * length (b :: bs)).
  rewrite IH. simpl. lia.
Qed.

(** C8.  The factory.  Whatever it is given, [create] returns a facade whose
    Boss was built with, as side, the hex encoding of the five bytes drawn
    from the system (ten hex digits that read back as those bytes), and
    with, as versions, a dict whose only key, [app_versions], holds the
    caller's versions; the Boss has been started, and that is all it has
    been told, when the facade is returned; and the facade is the one that
    calls the delegate when a delegate is given that Python takes for true,
    the one that hands out Deferreds otherwise (no delegate, or one taken
    for false), each as its constructor makes it. *)
Theorem create_wires (entropy : nat -> byte) (appid relay_url : string)
    (reactor versions : pyval) (delegate : option Delegate)
    (journal tor_manager timing welcome_handler stderr : pyval) :
  exists b,
    let w := create entropy appid relay_url reactor versions delegate
               journal tor_manager timing welcome_handler stderr in
    let random := os_urandom entropy 5 in
    let delegated d :=
      a_DelegatedWormhole (Delegated.upd_boss (Some b) (Delegated.__init__ d)) in
    let deferred := a_DeferredWormhole (Deferred.upd_boss (Some b) Deferred.__init__) in
    boss_of w = Some b /\
    length random = 5 /\
    boss_side b = bytes_to_hexstr random /\
    String.length (boss_side b) = 10 /\
    hexstr_to_bytes (boss_side b) = Some random /\
    w = match delegate with
        | Some d => if delegate_bool d then delegated d else deferred
        | None => deferred
        end /\
    boss_versions b !! "app_versions" = Some versions /\
    (forall k, k <> "app_versions" -> boss_versions b !! k = None) /\
    boss_calls b = [B_start] /\
    boss_appid b = appid /\ boss_relay_url b = relay_url.
Proof.
  set (random := os_urandom entropy 5).
  exists (boss_receive B_start
            (mkBoss (bytes_to_hexstr random) relay_url appid
               (<["app_versions" := versions]> ∅)
               (if negb (truthy welcome_handler) then handle_welcome relay_url
                else caller_welcome welcome_handler)
               reactor (if truthy journal then journal else ImmediateJournal)
               tor_manager (if truthy timing then timing else DebugTiming) [])).
  cbv zeta. fold random. split_and!.
  - unfold create. destruct delegate as [d|]; [destruct (delegate_bool d)|]; reflexivity.
  - reflexivity.
  - reflexivity.
  - change (String.length (bytes_to_hexstr random) = 10).
    by rewrite bytes_to_hexstr_length.
  - apply bytes_to_hexstr_back.
  - unfold create. destruct delegate as [d|]; [destruct (delegate_bool d)|]; reflexivity.
  - apply lookup_insert_eq.
  - intros k Hk. change (<["app_versions" := versions]> (∅ : gmap string pyval) !! k = None).
    by rewrite lookup_insert_ne.
  - reflexivity.
  - reflexivity.
  - reflexivity.
Qed.

(** C8, as stated, fails.  A delegate is supplied, yet [create] returns the
    facade that hands out Deferreds, as its constructor makes it and with
    its Boss started: the delegate is an object Python takes for false. *)
Lemma create_wires_counterexample :
  create sample_entropy "lothar.com/wormhole/text-or-file-xfer"
    "ws://relay.magic-wormhole.io:4000/v1" (PyObj "reactor" true)
    (PyDict []) (Some sample_empty_delegate) PyNone PyNone PyNone PyNone
    (PyObj "stderr" true)
  = a_DeferredWormhole (Deferred.upd_boss (Some sample_boss) Deferred.__init__).
Proof. reflexivity. Qed.

(** * Further properties *)

(** ** The facade that hands out Deferreds *)

Module DeferredMore.
Import Deferred DeferredFacts.

Lemma boss_calls_told cs b : boss_calls (told cs b) = boss_calls b ++ cs.
Proof.
  revert b. induction cs as [|c cs IH]; intros b; simpl.
  - by rewrite app_nil_r.
  - rewrite IH. simpl. by rewrite <- app_assoc.
Qed.

Lemma to_boss_told c w b :
  _boss (self w) = Some b ->
  to_boss c w = (Ok tt, mkWorld (heap w) (trace w) (upd_boss (Some (boss_receive c b)) (self w))).
Proof. intros Hb. unfold to_boss, bind, get, put. simpl. by rewrite Hb. Qed.

Lemma input_code_told imp w b :
  _boss (self w) = Some b ->
  input_code imp w =
  (Ok (Boss_input_code imp b),
   mkWorld (heap w) (trace w) (upd_boss (Some (boss_receive B_input_code b)) (self w))).
Proof. intros Hb. unfold input_code, bind, get, put, ret. simpl. by rewrite Hb. Qed.

(** X1.  The calls that are passed on ([allocate_code], [input_code],
    [set_code], [send], [debug_set_trace]) reach the Boss one by one, in
    the order made, each returning normally ([input_code] with what the
    Boss returned); nothing else of the facade changes and no Deferred is
    made or fired.  This is so in every state of the facade, closed or
    not. *)
Theorem passed_on_in_order (imp : Imports) (l : list action) (w : World) (b : Boss) :
  _boss (self w) = Some b ->
  Forall (fun a => is_Some (forwarded a)) l ->
  acts imp l w =
    mkWorld (heap w) (trace w) (upd_boss (Some (told (omap forwarded l) b)) (self w)) /\
  boss_calls (told (omap forwarded l) b) = boss_calls b ++ omap forwarded l /\
  (forall n, fst (allocate_code n w) = Ok tt) /\
  fst (input_code imp w) = Ok (Boss_input_code imp b) /\
  (forall c, fst (set_code c w) = Ok tt) /\
  (forall p, fst (send p w) = Ok tt) /\
  (forall n wh, fst (debug_set_trace n wh w) = Ok tt).
Proof.
  intros Hb Hl. split_and!.
  - revert w b Hb. induction l as [|a l IH]; intros w b Hb.
    + simpl. destruct w as [h t s]. simpl in *. f_equal.
      destruct s. simpl in *. by rewrite Hb.
    + apply Forall_cons in Hl as [[c Hc] Hl].
      unfold acts in *. simpl fold_left.
      assert (act imp a w =
              mkWorld (heap w) (trace w) (upd_boss (Some (boss_receive c b)) (self w))) as ->.
      { destruct a; try discriminate Hc; simpl in Hc; injection Hc as <-; simpl;
          unfold allocate_code, set_code, send, debug_set_trace;
          by rewrite ?(input_code_told imp w b), ?(to_boss_told _ w b). }
      rewrite (IH Hl _ (boss_receive c b)) by done. simpl. by rewrite Hc.
  - apply boss_calls_told.
  - intros n. unfold allocate_code. by rewrite (to_boss_told _ w b).
  - by rewrite (input_code_told imp w b).
  - intros c. unfold set_code. by rewrite (to_boss_told _ w b).
  - intros p. unfold send. by rewrite (to_boss_told _ w b).
  - intros n wh. unfold debug_set_trace. by rewrite (to_boss_told _ w b).
Qed.


Lemma act_keeps_closed_result imp a w :
  _closed_result (self (act imp a w)) = _closed_result (self w).
Proof.
  destruct a; simpl;
    match goal with |- _ (self (snd (?m w))) = _ =>
      revert w; change (keeps _closed_result m) end;
    try (destruct x);
    unfold when, when_code, when_key, when_verified, when_version, got, got_code,
      got_key, got_verifier, got_version, when_received, allocate_code, input_code,
      set_code, send, derive_key, close, debug_set_trace, received; keeps_tac.
Qed.

Lemma act_keeps_stream_apart imp a w :
  is_open w ->
  _received_data (self w) = [] \/ _received_observers (self w) = [] ->
  _received_data (self (act imp a w)) = [] \/ _received_observers (self (act imp a w)) = [].
Proof.
  intros Ho Hone.
  assert (forall A (m : M A),
            keeps (fun s => (_received_data s, _received_observers s)) m ->
            _received_data (self (snd (m w))) = [] \/
            _received_observers (self (snd (m w))) = []) as Hkeep.
  { intros A m Hm. specialize (Hm w). simpl in Hm. injection Hm as -> ->. done. }
  destruct a as [x| |n| |c|p|p n| |n wh|x|m]; simpl.
  - apply Hkeep. destruct x; unfold when, when_code, when_key, when_verified, when_version;
      keeps_tac.
  - destruct (_received_data (self w)) as [|m rest] eqn:E.
    + rewrite when_received_waits by done. simpl. by left.
    + rewrite (when_received_from_buffer w m rest) by done. simpl.
      right. by destruct Hone.
  - apply Hkeep. unfold allocate_code. keeps_tac.
  - apply Hkeep. unfold input_code. keeps_tac.
  - apply Hkeep. unfold set_code. keeps_tac.
  - apply Hkeep. unfold send. keeps_tac.
  - rewrite derive_key_world. done.
  - apply Hkeep. unfold close. keeps_tac.
  - apply Hkeep. unfold debug_set_trace. keeps_tac.
  - apply Hkeep. destruct x; unfold got, got_code, got_key, got_verifier, got_version;
      keeps_tac.
  - destruct (_received_observers (self w)) as [|d rest] eqn:E.
    + rewrite received_buffers by done. simpl. by right.
    + unfold received, bind, get, put, callback. simpl. rewrite E. simpl.
      left. destruct Hone as [H|H]; [|done].
      pose proof (keeps_fire _received_data d (callback_outcome (PyBytes m))
                    (mkWorld (heap w) (trace w) (upd_received_observers rest (self w)))) as Hk.
      simpl in Hk. by rewrite Hk.
Qed.

(** X2.  What the facade [create] returns without a delegate keeps, through
    any calls and events short of [closed]: it is open; no close outcome is
    recorded; every Deferred it holds is held once and still waits; and
    never is a message buffered while a request for one waits. *)
Theorem created_facade_invariant (entropy : nat -> byte) (appid relay_url : string)
    (reactor versions journal tor_manager timing welcome_handler stderr : pyval)
    (imp : Imports) (l : list action) :
  match create entropy appid relay_url reactor versions None
          journal tor_manager timing welcome_handler stderr with
  | a_DeferredWormhole s =>
      let w := acts imp l (mkWorld [] [] s) in
      is_open w /\ _closed_result (self w) = PyNone /\ tidy w /\
      (_received_data (self w) = [] \/ _received_observers (self w) = [])
  | a_DelegatedWormhole _ => False
  end.
Proof.
  simpl.
  match goal with |- context [acts imp l ?w0] => set (w := w0) end.
  assert (is_open w /\ _closed_result (self w) = PyNone /\ tidy w /\
          (_received_data (self w) = [] \/ _received_observers (self w) = [])) as H.
  { split_and!; try done; [|by left]. split; [apply NoDup_nil_2|apply Forall_nil_2]. }
  clearbody w. revert w H. induction l as [|a l IH]; intros w (Ho & Hc & Ht & Hs); [done|].
  unfold acts in *. simpl. apply IH. split_and!.
  - unfold is_open in *. by rewrite act_keeps_result.
  - by rewrite act_keeps_closed_result.
  - by apply act_keeps_tidy.
  - by apply act_keeps_stream_apart.
Qed.


(** X3.  After [closed(result)], and whatever calls and events follow short
    of another [closed], each of [when_code], [when_key], [when_verified],
    [when_version] and [when_received] returns a new Deferred that has
    already failed, with [result] when it is an exception and with
    [WormholeClosed(result)] otherwise; it leaves the facade as it was, so
    cached values and buffered messages are neither handed out nor
    consumed. *)
Theorem readers_refused_after_closed (imp : Imports) (result : pyval) (w : World)
    (later : list action) (x : scalar) :
  let w2 := acts imp later (snd (closed result w)) in
  let refused := mkWorld (heap w2 ++ [Fired (told_readers result)])
                   (trace w2 ++ [(length (heap w2), told_readers result)]) (self w2) in
  when x w2 = (Ok (length (heap w2)), refused) /\
  when_received w2 = (Ok (length (heap w2)), refused) /\
  told_readers result =
    Failed (if is_Exception result then result else WormholeClosed result).
Proof.
  cbv zeta. destruct (closed_is_absorbing imp result w later) as [H1 H2].
  cbv zeta in H1, H2. by rewrite H1, H2.
Qed.

(** X4.  Once [closed(result)] has recorded an outcome that Python takes for
    true (an exception, or a value such as ["happy"]), [close()] may be
    called any number of times: each call returns a new Deferred already
    fired with the outcome (failed with the exception, or succeeded with
    the value), and the facade, its Boss included, is left as it was. *)
Theorem close_repeats_outcome (result : pyval) (n : nat) (w : World) :
  tidy w ->
  is_Exception result = true \/ truthy result = true ->
  exists w1 w2,
    closed result w = (Ok tt, w1) /\
    times n close w1 = (Ok (seq (length (heap w1)) n), w2) /\
    heap w2 = heap w1 ++ replicate n (Fired (told_closers result)) /\
    self w2 = self w1.
Proof.
  intros Ht Hr. rewrite closed_delivers by done. eexists _, _. split; [reflexivity|].
  rewrite close_is_idempotent; cbv zeta; simpl.
  - assert (callback_outcome (if is_Exception result then PyFailure result else result)
            = told_closers result) as ->
      by (unfold told_closers; by destruct (is_Exception result)).
    by split_and!.
  - destruct (is_Exception result); [done|]. by destruct Hr.
Qed.

Lemma for_each_fire_fired l o w :
  Forall (fun d => exists o', heap w !! d = Some (Fired o')) l ->
  for_each l (fun d => fire d o) w =
  (match l with [] => Ok tt | _ => Raise AlreadyCalledError end, w).
Proof.
  intros Hl. destruct l as [|d l]; [done|].
  apply Forall_cons in Hl as [[o' Hd] _].
  simpl. unfold bind, fire. by rewrite Hd.
Qed.

Lemma closed_readers_fired result w d :
  tidy w -> d ∈ readers (self w) ->
  heap (snd (closed result w)) !! d = Some (Fired (told_readers result)).
Proof.
  intros Ht Hd. destruct (closed_fires result w Ht) as (w' & -> & _ & Hr & _).
  rewrite Forall_forall in Hr. by apply Hr.
Qed.

(** X5.  A value delivered after the close.  If somebody was waiting for it
    when [closed] arrived, the late [got_code] / [got_key] / [got_verifier]
    / [got_version] raises [AlreadyCalledError]: the value is cached all
    the same, no Deferred changes, and the queue is left as it was.  If
    nobody was waiting, the late delivery returns normally and caches the
    value. *)
Theorem delivery_after_closed (result : pyval) (x : scalar) (w : World) :
  tidy w ->
  exists w1 w2,
    closed result w = (Ok tt, w1) /\
    got x w1 = (match waiters x (self w) with
                | [] => Ok tt
                | _ => Raise AlreadyCalledError
                end, w2) /\
    heap w2 = heap w1 /\ trace w2 = trace w1 /\
    cached x (self w2) = value x /\
    waiters x (self w2) = waiters x (self w) /\
    _observer_result (self w2) = _observer_result (self w1).
Proof.
  intros Ht.
  assert (Forall (fun d => exists o', heap (snd (closed result w)) !! d = Some (Fired o'))
            (waiters x (self w))) as Hf.
  { rewrite Forall_forall. intros d Hd. eexists. apply closed_readers_fired; [done|].
    unfold readers. destruct x; simpl in Hd; set_solver. }
  rewrite closed_delivers in * by done. simpl in Hf.
  destruct x; simpl in Hf |- *;
    match goal with |- context [match ?l with [] => _ | _ => _ end] =>
      destruct l eqn:E end;
    eexists _, _; (split; [reflexivity|]);
    unfold got, got_code, got_key, got_verifier, got_version, callback;
    unfold bind at 1; unfold put at 1; simpl;
    unfold bind at 1; unfold get at 1; simpl; rewrite E;
    unfold bind at 1; rewrite for_each_fire_fired by done;
    simpl; by split_and!.
Qed.


Lemma closed_again result w :
  Forall (fun d => exists o', heap w !! d = Some (Fired o')) (observers (self w)) ->
  closed result w =
  (match observers (self w) with [] => Ok tt | _ => Raise AlreadyCalledError end,
   mkWorld (heap w) (trace w)
     (upd_closed_result (if is_Exception result then PyFailure result else result)
        (upd_observer_result
           (if is_Exception result then PyFailure result else WormholeClosed result)
           (self w)))).
Proof.
  unfold observers, readers. rewrite !Forall_app.
  intros ((Ha & Hb & Hc & Hd & He) & Hf).
  unfold closed.
  destruct (is_Exception result);
    unfold bind, get, put, errback, callback; simpl;
    rewrite for_each_fire_fired by done;
    destruct (_code_observers (self w)); simpl; [|done| |done];
    rewrite for_each_fire_fired by done;
    destruct (_key_observers (self w)); simpl; [|done| |done];
    rewrite for_each_fire_fired by done;
    destruct (_verifier_observers (self w)); simpl; [|done| |done];
    rewrite for_each_fire_fired by done;
    destruct (_version_observers (self w)); simpl; [|done| |done];
    rewrite for_each_fire_fired by done;
    destruct (_received_observers (self w)); simpl; [|done| |done];
    rewrite for_each_fire_fired by done;
    by destruct (_closed_observers (self w)).
Qed.

(** X6.  The facade does not hold [closed] to once.  A second
    [closed(r2)] overwrites both recorded outcomes with those of [r2]; it
    fires nobody; and it raises [AlreadyCalledError] exactly when some
    Deferred was waiting at the first [closed] (the lists of observers are
    never emptied by [closed]). *)
Theorem closed_twice (r1 r2 : pyval) (w : World) :
  tidy w ->
  exists w1 w2,
    closed r1 w = (Ok tt, w1) /\
    closed r2 w1 = (match observers (self w) with
                    | [] => Ok tt
                    | _ => Raise AlreadyCalledError
                    end, w2) /\
    heap w2 = heap w1 /\ trace w2 = trace w1 /\
    _observer_result (self w2) =
      (if is_Exception r2 then PyFailure r2 else WormholeClosed r2) /\
    _closed_result (self w2) = (if is_Exception r2 then PyFailure r2 else r2) /\
    observers (self w2) = observers (self w).
Proof.
  intros Ht.
  destruct (closed_fires r1 w Ht) as (w1 & Hcl & Hc & Hr & Hself).
  exists w1. rewrite Hcl, closed_again.
  - rewrite Hself. eexists. split; [done|]. split; [reflexivity|]. by split_and!.
  - rewrite Hself. unfold observers in *. simpl. apply Forall_app. split.
    + eapply Forall_impl; [exact Hr|]. intros d Hd. eexists. exact Hd.
    + eapply Forall_impl; [exact Hc|]. intros d Hd. eexists. exact Hd.
Qed.

(** X7.  The facade does not hold a delivery to once either.  Before any
    close, a second [got_code] (and so for key, verifier, versions) finds
    the queue empty, fires nobody, and replaces the cached value: a later
    request gets the second value, while those who were waiting at the
    first delivery have got the first. *)
Theorem delivered_twice (x1 x2 : scalar) (w : World) :
  tidy w -> is_open w -> same_event x1 x2 = true ->
  exists w1 w2 w3,
    got x1 w = (Ok tt, w1) /\
    Forall (fun d => heap w1 !! d = Some (Fired (Succeeded (value x1))))
      (waiters x1 (self w)) /\
    got x2 w1 = (Ok tt, w2) /\
    heap w2 = heap w1 /\ trace w2 = trace w1 /\
    when x2 w2 = (Ok (length (heap w2)), w3) /\
    heap w3 = heap w2 ++ [Fired (Succeeded (value x2))].
Proof.
  intros Ht Ho Hsame.
  destruct (got_delivers x1 w Ht) as (w1 & Hg1 & Hh1 & Htr1 & Hq1 & Hc1 & Hr1 & Hperm1).
  assert (tidy w1) as Ht1 by (by eapply tidy_remove).
  destruct (got_delivers x2 w1 Ht1) as (w2 & Hg2 & Hh2 & Htr2 & Hq2 & Hc2 & Hr2 & Hperm2).
  assert (waiters x2 (self w1) = []) as Hnone
    by (destruct x1, x2; try discriminate Hsame; exact Hq1).
  rewrite Hnone in *. simpl in Hh2, Htr2. rewrite app_nil_r in Htr2.
  assert (is_open w2) as Ho2 by (unfold is_open in *; congruence).
  eexists w1, w2, _. split_and!; try done.
  - rewrite Forall_forall. intros d Hd. rewrite Hh1.
    apply fire_all_fired; [done|]. apply observers_lt; [done|].
    unfold observers, readers. destruct x1; simpl in Hd; set_solver.
  - rewrite when_known; [|done|rewrite Hc2; apply value_not_None]. by rewrite Hc2.
  - done.
Qed.

Lemma when_received_refused result w :
  _observer_result (self w) =
    (if is_Exception result then PyFailure result else WormholeClosed result) ->
  when_received w =
  (Ok (length (heap w)),
   mkWorld (heap w ++ [Fired (told_readers result)])
           (trace w ++ [(length (heap w), told_readers result)]) (self w)).
Proof.
  intros Hr. rewrite when_received_after_closed; rewrite Hr;
    [|apply closed_result_not_None].
  unfold fail, fired. by rewrite errback_outcome_closed.
Qed.

(** X8.  A message that arrives after the close.  If no request was waiting
    when [closed] arrived, [received(m)] returns normally and appends [m] to
    the buffer, where it stays for good, since every later
    [when_received()] is refused without touching the buffer.  If a request
    was waiting, [received(m)] raises [AlreadyCalledError], having removed
    that request from the queue: [m] is neither handed out nor buffered. *)
Theorem message_after_closed (result : pyval) (m : bytes) (w : World) :
  tidy w ->
  exists w1 w2 w3,
    closed result w = (Ok tt, w1) /\
    received m w1 = (match _received_observers (self w) with
                     | [] => Ok tt
                     | _ => Raise AlreadyCalledError
                     end, w2) /\
    heap w2 = heap w1 /\ trace w2 = trace w1 /\
    _received_data (self w2) =
      match _received_observers (self w) with
      | [] => _received_data (self w) ++ [m]
      | _ => _received_data (self w)
      end /\
    _received_observers (self w2) = tail (_received_observers (self w)) /\
    when_received w2 = (Ok (length (heap w2)), w3) /\
    heap w3 = heap w2 ++ [Fired (told_readers result)] /\
    self w3 = self w2.
Proof.
  intros Ht.
  destruct (closed_fires result w Ht) as (w1 & Hcl & _ & Hr & Hself).
  assert (_received_observers (self w1) = _received_observers (self w)) as Hq
    by (by rewrite Hself).
  assert (_received_data (self w1) = _received_data (self w)) as Hd
    by (by rewrite Hself).
  assert (_observer_result (self w1) =
          (if is_Exception result then PyFailure result else WormholeClosed result)) as Ho
    by (by rewrite Hself).
  exists w1. rewrite Hcl.
  destruct (_received_observers (self w)) as [|d rest] eqn:E.
  - rewrite received_buffers by done.
    eexists _, _. split; [done|]. split; [reflexivity|]. simpl.
    rewrite (when_received_refused result) by done. simpl.
    rewrite Hd, Hq. by split_and!.
  - assert (heap w1 !! d = Some (Fired (told_readers result))) as Hf.
    { rewrite Forall_forall in Hr. apply Hr. unfold readers. rewrite E. set_solver. }
    unfold received, bind, get, put, callback, fire. simpl. rewrite Hq. simpl. rewrite Hf.
    eexists _, _. split; [done|]. split; [reflexivity|]. simpl.
    rewrite (when_received_refused result) by done. simpl.
    rewrite Hd. by split_and!.
Qed.

(** X15.  Until a key is delivered, whatever else is called on or
    delivered to the facade [create] returns without a delegate,
    [derive_key] with a text purpose raises [NoKeyError] and [when_key]
    returns a Deferred that waits. *)
Theorem no_key_before_got_key (entropy : nat -> byte) (appid relay_url : string)
    (reactor versions journal tor_manager timing welcome_handler stderr : pyval)
    (imp : Imports) (l : list action) (p : string) (n : Z) :
  Forall (fun a => delivers (SessionKey []) a = false) l ->
  match create entropy appid relay_url reactor versions None
          journal tor_manager timing welcome_handler stderr with
  | a_DeferredWormhole s =>
      let w := acts imp l (mkWorld [] [] s) in
      derive_key imp (PyStr p) n w = (Raise NoKeyError, w) /\
      exists w', when_key w = (Ok (length (heap w)), w') /\
                 heap w' = heap w ++ [Pending]
  | a_DelegatedWormhole _ => False
  end.
Proof.
  intros Hl. simpl.
  match goal with |- context [acts imp l ?w0] => set (w0' := w0) end.
  assert (is_open w0' /\ tidy w0') as [Ho0 Ht0].
  { split; [done|]. split; [apply NoDup_nil_2|apply Forall_nil_2]. }
  destruct (acts_keep_tidy imp l w0' Ho0 Ht0) as [Ho _].
  pose proof (acts_keep_cached imp (SessionKey []) l w0' Hl) as Hc.
  change (cached (SessionKey []) (self w0')) with PyNone in Hc.
  split.
  - apply derive_key_no_key. simpl in Hc. by rewrite Hc.
  - destruct (when_registers (SessionKey []) _ Ho Hc) as (w' & Hw & Hh & _).
    by exists w'.
Qed.

Lemma no_key_before_got_key_witness :
  let w := acts sample_imports [do_got (Code "4-a"); do_close; do_received []] sample_world in
  derive_key sample_imports (PyStr "p") 32 w = (Raise NoKeyError, w) /\
  exists w', when_key w = (Ok (length (heap w)), w') /\ heap w' = heap w ++ [Pending].
Proof.
  apply (no_key_before_got_key sample_entropy "lothar.com/wormhole/text-or-file-xfer"
           "ws://relay.magic-wormhole.io:4000/v1" (PyObj "reactor" true) (PyDict [])
           PyNone PyNone PyNone PyNone (PyObj "stderr" true) sample_imports
           [do_got (Code "4-a"); do_close; do_received []] "p" 32%Z).
  repeat constructor.
Defined.

Lemma passed_on_in_order_witness :
  acts sample_imports [do_set_code "4-a"; do_send ["h"%byte]; do_send []] sample_world =
  mkWorld [] []
    (upd_boss (Some (told [B_set_code "4-a"; B_send ["h"%byte]; B_send []] sample_boss))
       (self sample_world)).
Proof.
  apply (passed_on_in_order sample_imports
           [do_set_code "4-a"; do_send ["h"%byte]; do_send []] sample_world sample_boss).
  - reflexivity.
  - repeat (apply Forall_cons; split; [by eexists|]). apply Forall_nil_2.
Defined.

Lemma close_repeats_outcome_witness :
  exists w1 w2,
    closed (PyStr "happy") sample_world = (Ok tt, w1) /\
    times 3 close w1 = (Ok (seq (length (heap w1)) 3), w2) /\
    heap w2 = heap w1 ++ replicate 3 (Fired (told_closers (PyStr "happy"))) /\
    self w2 = self w1.
Proof.
  apply (close_repeats_outcome (PyStr "happy") 3 sample_world).
  - apply sample_world_tidy.
  - right. reflexivity.
Defined.

Lemma delivery_after_closed_witness :
  exists w1 w2,
    closed (PyStr "happy")
      (acts sample_imports [do_when (Code ""); do_when_received] sample_world) = (Ok tt, w1) /\
    got (Code "4-a") w1 = (Raise AlreadyCalledError, w2) /\
    cached (Code "4-a") (self w2) = PyStr "4-a".
Proof.
  destruct (delivery_after_closed (PyStr "happy") (Code "4-a")
              (acts sample_imports [do_when (Code ""); do_when_received] sample_world))
    as (w1 & w2 & H1 & H2 & _ & _ & H3 & _).
  - apply waiting_world_tidy.
  - by exists w1, w2.
Defined.

Lemma closed_twice_witness :
  exists w1 w2,
    closed (PyStr "happy")
      (acts sample_imports [do_when (Code ""); do_when_received] sample_world) = (Ok tt, w1) /\
    closed (PyExc "LonelyError" [] true) w1 = (Raise AlreadyCalledError, w2) /\
    _closed_result (self w2) = PyFailure (PyExc "LonelyError" [] true).
Proof.
  destruct (closed_twice (PyStr "happy") (PyExc "LonelyError" [] true)
              (acts sample_imports [do_when (Code ""); do_when_received] sample_world))
    as (w1 & w2 & H1 & H2 & _ & _ & _ & H3 & _).
  - apply waiting_world_tidy.
  - by exists w1, w2.
Defined.

Lemma delivered_twice_witness :
  exists w1 w2 w3,
    got (Code "4-a") (acts sample_imports [do_when (Code ""); do_when_received] sample_world)
      = (Ok tt, w1) /\
    heap w1 !! 0 = Some (Fired (Succeeded (PyStr "4-a"))) /\
    got (Code "5-b") w1 = (Ok tt, w2) /\
    when_code w2 = (Ok (length (heap w2)), w3) /\
    heap w3 = heap w2 ++ [Fired (Succeeded (PyStr "5-b"))].
Proof.
  destruct (delivered_twice (Code "4-a") (Code "5-b")
              (acts sample_imports [do_when (Code ""); do_when_received] sample_world))
    as (w1 & w2 & w3 & H1 & H2 & H3 & _ & _ & H4 & H5).
  - apply waiting_world_tidy.
  - reflexivity.
  - reflexivity.
  - exists w1, w2, w3. split_and!; try done.
    apply Forall_cons in H2 as [H2 _]. exact H2.
Defined.

Lemma message_after_closed_witness :
  exists w1 w2 w3,
    closed (PyStr "happy") sample_world = (Ok tt, w1) /\
    received ["m"%byte] w1 = (Ok tt, w2) /\
    _received_data (self w2) = [["m"%byte]] /\
    when_received w2 = (Ok (length (heap w2)), w3) /\
    heap w3 = heap w2 ++ [Fired (told_readers (PyStr "happy"))] /\
    self w3 = self w2.
Proof.
  destruct (message_after_closed (PyStr "happy") ["m"%byte] sample_world)
    as (w1 & w2 & w3 & H1 & H2 & _ & _ & H3 & _ & H4 & H5 & H6).
  - apply sample_world_tidy.
  - by exists w1, w2, w3.
Defined.

End DeferredMore.

(** ** The facade that calls a delegate *)

Module DelegatedMore.
Import Delegated DelegatedFacts.

Lemma perform_forwarded imp c bc w b :
  forwarded_call c = Some bc -> _boss (self w) = Some b ->
  perform imp c w =
  (match c with A_input_code => Ok (Boss_input_code imp b) | _ => Ok PyNone end,
   mkWorld (upd_boss (Some (boss_receive bc b)) (self w)) (seen w)).
Proof.
  intros Hc Hb.
  destruct c; try discriminate Hc; simpl in Hc; injection Hc as <-; simpl;
    unfold returning_None, allocate_code, input_code, set_code, send, close,
      debug_set_trace, to_boss, bind, get, put, ret; simpl; by rewrite Hb.
Qed.

Lemma derive_key_by_key imp purpose n w w' :
  _key (self w) = _key (self w') ->
  fst (derive_key imp purpose n w) = fst (derive_key imp purpose n w').
Proof.
  intros Hk. destruct purpose; try done.
  unfold derive_key, bind, get, raise, ret. simpl. rewrite Hk.
  destruct (_key (self w')) as [[|b k]|]; simpl; try done.
  by destruct (key_derive_key imp _ _ _).
Qed.

(** What a call made on the facade in state [w] is answered. *)
Lemma perform_cases imp c w b :
  _boss (self w) = Some b ->
  perform imp c w =
  (match c with
   | A_derive_key purpose n => fst (derive_key imp purpose n w)
   | A_input_code => Ok (Boss_input_code imp b)
   | _ => Ok PyNone
   end,
   mkWorld (upd_boss (Some (told (omap forwarded_call [c]) b)) (self w)) (seen w)).
Proof.
  intros Hb. destruct (forwarded_call c) as [bc|] eqn:Hc.
  - rewrite (perform_forwarded imp c bc w b) by done. simpl. rewrite Hc. simpl.
    by destruct c.
  - destruct c; try discriminate Hc. simpl.
    rewrite (surjective_pairing (derive_key imp purpose length w)).
    rewrite delegate_derive_key_world. f_equal.
    destruct w as [[d k bo] s]. simpl in *. by rewrite Hb.
Qed.

Lemma told_app cs1 cs2 b : told (cs1 ++ cs2) b = told cs2 (told cs1 b).
Proof. unfold told. apply fold_left_app. Qed.

Lemma told_forwarded_cons c cs b :
  told (omap forwarded_call (c :: cs)) b
  = told (omap forwarded_call cs) (told (omap forwarded_call [c]) b).
Proof. simpl. by destruct (forwarded_call c). Qed.

(** X9.  On the facade that calls a delegate, every call but [derive_key]
    is passed on to the Boss and returns normally ([None], but for
    [input_code], which hands back what the Boss returns), in any state of
    the facade; the Boss receives the calls in the order made and nothing
    else of the facade changes.  In particular [close()] is passed on every
    time it is called: [n] calls of [close()] send the Boss [n] times
    [close]. *)
Theorem delegated_calls_pass_on (imp : Imports) (cs : list api_call) (w : World) (b : Boss) :
  _boss (self w) = Some b ->
  performs imp cs w =
    mkWorld (upd_boss (Some (told (omap forwarded_call cs) b)) (self w)) (seen w) /\
  boss_calls (told (omap forwarded_call cs) b) = boss_calls b ++ omap forwarded_call cs /\
  (forall c, is_Some (forwarded_call c) -> c <> A_input_code ->
             fst (perform imp c w) = Ok PyNone) /\
  fst (perform imp A_input_code w) = Ok (Boss_input_code imp b) /\
  (forall n, omap forwarded_call (replicate n A_close) = replicate n B_close).
Proof.
  intros Hb. split_and!.
  - revert w b Hb. induction cs as [|c cs IH]; intros w b Hb.
    + destruct w as [[d k bo] s]. simpl in *. by rewrite Hb.
    + unfold performs in *. simpl fold_left.
      rewrite (perform_cases imp c w b) by done. simpl snd.
      rewrite (IH _ (told (omap forwarded_call [c]) b)) by done. simpl.
      by destruct (forwarded_call c).
  - apply DeferredMore.boss_calls_told.
  - intros c [bc Hc] Hne. rewrite (perform_forwarded imp c bc w b) by done.
    by destruct c.
  - by rewrite (perform_forwarded imp A_input_code B_input_code w b).
  - intros n. induction n as [|n IH]; [done|].
    change (B_close :: omap forwarded_call (replicate n A_close) = B_close :: replicate n B_close).
    by rewrite IH.
Qed.


(** What a handler does to the facade: it is played to its end, its calls
    are logged with their answers, those that are passed on reach the Boss
    in order, [input_code] hands back what the Boss returns at that point,
    and [derive_key] is answered throughout as it would have been before
    the handler started. *)
Lemma run_effect imp h w b :
  _boss (self w) = Some b ->
  exists new,
    seen (snd (run imp h w)) = seen w ++ new /\
    played h new (fst (run imp h w)) /\
    self (snd (run imp h w)) =
      upd_boss (Some (told (omap forwarded_call (map fst new)) b)) (self w) /\
    (forall pre c r post,
       new = pre ++ (c, r) :: post ->
       r = match c with
           | A_derive_key purpose n => fst (derive_key imp purpose n w)
           | A_input_code =>
               Ok (Boss_input_code imp (told (omap forwarded_call (map fst pre)) b))
           | _ => Ok PyNone
           end).
Proof.
  revert w b. induction h as [| e | c k IH]; intros w b Hb.
  - exists []. simpl. rewrite app_nil_r. split_and!; try done; [constructor| |].
    + destruct (self w). simpl in *. by rewrite Hb.
    + intros [|] ? ? ? [=].
  - exists []. simpl. rewrite app_nil_r. split_and!; try done; [constructor| |].
    + destruct (self w). simpl in *. by rewrite Hb.
    + intros [|] ? ? ? [=].
  - simpl. rewrite (perform_cases imp c w b) by done.
    set (r := match c with
              | A_derive_key purpose n => fst (derive_key imp purpose n w)
              | A_input_code => Ok (Boss_input_code imp b)
              | _ => Ok PyNone
              end).
    set (w1 := mkWorld (upd_boss (Some (told (omap forwarded_call [c]) b)) (self w)) (seen w)).
    destruct (IH r (saw c r w1) (told (omap forwarded_call [c]) b) eq_refl)
      as (new & Hseen & Hplayed & Hself & Hall).
    exists ((c, r) :: new). split_and!.
    + rewrite Hseen. simpl. by rewrite <- app_assoc.
    + by constructor.
    + rewrite Hself. simpl. by destruct (forwarded_call c).
    + intros [|[c0 r0] pre] c' r' post Hnew; simpl in Hnew.
      * injection Hnew as <- <- _. done.
      * injection Hnew as <- <- Hnew. rewrite (Hall pre c' r' post Hnew).
        destruct c'; try done.
        -- change (map fst ((c, r) :: pre)) with (c :: map fst pre).
           by rewrite (told_forwarded_cons c (map fst pre) b).
        -- by apply derive_key_by_key.
Qed.

(** X10.  An event on the facade that calls a delegate runs the handler of
    the delegate that is meant for it, to its end, and nothing else: the
    event ends as that handler ends, raising what it raises.  Each call the
    handler makes is answered at once: the calls passed on reach the Boss
    in the order made and return normally ([None], but for [input_code],
    which hands back what the Boss, told the calls before it, returns), and
    [derive_key] answers what it would have answered just before the
    event.  The delegate is never replaced, and the cached key changes in
    one case only: [got_key(k)] whose handler has returned leaves [k]
    cached. *)
Theorem delegate_event_effect (imp : Imports) (e : event) (w : World) (b : Boss) :
  _boss (self w) = Some b ->
  exists new,
    let out := fst (deliver imp e w) in
    let w' := snd (deliver imp e w) in
    played (handler_of (_delegate (self w)) e) new out /\
    seen w' = seen w ++ new /\
    _boss (self w') = Some (told (omap forwarded_call (map fst new)) b) /\
    boss_calls (told (omap forwarded_call (map fst new)) b)
      = boss_calls b ++ omap forwarded_call (map fst new) /\
    _delegate (self w') = _delegate (self w) /\
    (forall pre c r post,
       new = pre ++ (c, r) :: post ->
       r = match c with
           | A_derive_key purpose n => fst (derive_key imp purpose n w)
           | A_input_code =>
               Ok (Boss_input_code imp (told (omap forwarded_call (map fst pre)) b))
           | _ => Ok PyNone
           end) /\
    _key (self w') = match e, out with
                     | E_got_key k, Ok _ => Some k
                     | _, _ => _key (self w)
                     end.
Proof.
  intros Hb.
  destruct (run_effect imp (handler_of (_delegate (self w)) e) w b Hb)
    as (new & Hseen & Hplayed & Hself & Hall).
  pose proof (run_keeps_key imp (handler_of (_delegate (self w)) e) w) as Hkey.
  exists new. cbv zeta.
  assert (let w' := snd (run imp (handler_of (_delegate (self w)) e) w) in
          _boss (self w') = Some (told (omap forwarded_call (map fst new)) b) /\
          _delegate (self w') = _delegate (self w)) as [Hboss Hdel].
  { cbv zeta. by rewrite Hself. }
  pose proof (DeferredMore.boss_calls_told (omap forwarded_call (map fst new)) b) as Hcalls.
  destruct e; simpl in *;
    unfold got_code, got_key, got_verifier, got_version, received, closed, bind, get;
    simpl; try (split_and!; first [done | by destruct (fst (run imp _ w))]).
  destruct (run imp (wormhole_key (_delegate (self w)) key) w) as [[[]|e] w']; simpl in *;
    by split_and!.
Qed.

(** X11.  A key delivered a second time.  While the delegate's
    [wormhole_key] runs for the new key, [derive_key] with a text purpose
    still derives from the key cached before (non-empty); once [got_key]
    has returned it derives from the new one (non-empty). *)
Theorem key_replaced_after_delegate (imp : Imports) (old new_key : bytes) (w w1 : World)
    (b : Boss) :
  _boss (self w) = Some b -> _key (self w) = Some old -> old <> [] ->
  got_key imp new_key w = (Ok tt, w1) ->
  (exists new,
     seen w1 = seen w ++ new /\
     Forall (fun cr => forall p n,
               cr.1 = A_derive_key (PyStr p) n ->
               cr.2 = key_derive_key imp old (to_bytes imp p) n) new) /\
  (new_key <> [] ->
   forall p n,
     derive_key imp (PyStr p) n w1 = (key_derive_key imp new_key (to_bytes imp p) n, w1)).
Proof.
  intros Hb Hk Hne Hgot. split.
  - destruct (run_effect imp (wormhole_key (_delegate (self w)) new_key) w b Hb)
      as (new & Hseen & _ & _ & Hall).
    exists new. revert Hgot. unfold got_key, bind, get, put. simpl.
    destruct (run imp _ w) as [[[]|e] w']; [|done]. intros [= <-]. simpl in *.
    split; [done|]. apply Forall_forall.
    intros [c r] Hin p n Hc. simpl in *. subst c.
    apply list_elem_of_split in Hin as (pre & post & Hnew).
    rewrite (Hall pre _ r post Hnew).
    by rewrite (delegate_derive_key_with_key imp p n w old).
  - intros Hne' p n. apply delegate_derive_key_with_key; [|done].
    by eapply delegate_got_key_caches.
Qed.

Lemma delegated_calls_pass_on_witness :
  performs sample_imports [A_close; A_derive_key (PyStr "p") 32; A_close]
    sample_delegated_world =
  mkWorld (upd_boss (Some (told [B_close; B_close] sample_boss)) (self sample_delegated_world))
    [].
Proof.
  apply (delegated_calls_pass_on sample_imports
           [A_close; A_derive_key (PyStr "p") 32; A_close] sample_delegated_world sample_boss).
  reflexivity.
Defined.

Lemma delegate_event_effect_witness :
  exists new,
    let w' := snd (deliver sample_imports (E_got_key ["k"%byte]) sample_delegated_world) in
    played (wormhole_key sample_delegate ["k"%byte]) new (Ok tt) /\
    seen w' = seen sample_delegated_world ++ new /\
    _boss (self w') = Some (told (omap forwarded_call (map fst new)) sample_boss) /\
    _key (self w') = Some ["k"%byte].
Proof.
  destruct (delegate_event_effect sample_imports (E_got_key ["k"%byte])
              sample_delegated_world sample_boss)
    as (new & H0 & H1 & H2 & _ & _ & _ & H3); [reflexivity|].
  exists new. cbv zeta. split_and!; [exact H0|exact H1|exact H2|exact H3].
Defined.

Lemma key_replaced_after_delegate_witness :
  exists w0 w1,
    got_key sample_imports ["o"%byte] sample_delegated_world = (Ok tt, w0) /\
    got_key sample_imports ["n"%byte] w0 = (Ok tt, w1) /\
    seen w1 = [(A_derive_key (PyStr "early") 32, Raise NoKeyError);
               (A_derive_key (PyStr "early") 32,
                Ok (PyBytes (["o"%byte] ++ list_byte_of_string "early")))] /\
    derive_key sample_imports (PyStr "late") 32 w1
      = (Ok (PyBytes (["n"%byte] ++ list_byte_of_string "late")), w1).
Proof.
  eexists _, _. split; [reflexivity|]. split; [reflexivity|]. split; [reflexivity|].
  eapply (key_replaced_after_delegate sample_imports ["o"%byte] ["n"%byte]
            (snd (got_key sample_imports ["o"%byte] sample_delegated_world)) _ sample_boss).
  - reflexivity.
  - reflexivity.
  - discriminate.
  - reflexivity.
  - discriminate.
Defined.

End DelegatedMore.

(** ** The welcome handler *)

Module WelcomeFacts.
Import Welcome.

Example splitlines_samples :
  splitlines "" = [] /\
  splitlines "one" = ["one"] /\
  splitlines (String.append "one" (String "010" "")) = ["one"] /\
  splitlines (String "010" "") = [""] /\
  splitlines (String.append "a" (String "013" (String "010" "b"))) = ["a"; "b"] /\
  splitlines (String.append "a" (String "010" (String "013" "b"))) = ["a"; ""; "b"] /\
  splitlines (String.append "a" (String "010" (String "010" ""))) = ["a"; ""] /\
  splitlines (String.append "a" (String "226" (String "128" (String "168" "b")))) = ["a"; "b"].
Proof. by split_and!. Qed.


Lemma append_cons c s t : String.append (String c s) t = String c (String.append s t).
Proof. reflexivity. Qed.

Lemma append_empty_l t : String.append EmptyString t = t.
Proof. reflexivity. Qed.

Lemma append_empty_r s : String.append s EmptyString = s.
Proof. induction s as [|c s IH]; [done|]. by rewrite append_cons, IH. Qed.

Lemma append_assoc s t u :
  String.append (String.append s t) u = String.append s (String.append t u).
Proof. induction s as [|c s IH]; [done|]. by rewrite !append_cons, IH. Qed.

Lemma has_break_append s t : has_break (String.append s t) = has_break s || has_break t.
Proof.
  induction s as [|c s IH]; [done|]. rewrite append_cons. simpl. rewrite IH.
  by rewrite orb_assoc.
Qed.

Lemma boundary_is_break c rest :
  boundary (String c rest) = 0 -> is_break c = false.
Proof.
  intros H. destruct (is_break c) eqn:E; [|done]. exfalso.
  destruct c as [[] [] [] [] [] [] [] []]; try discriminate E;
    destruct rest as [|[[] [] [] [] [] [] [] []] rest]; discriminate H.
Qed.

Lemma splitlines_from_cons skip cur c rest :
  splitlines_from skip cur (String c rest) =
  match skip with
  | S k => splitlines_from k cur rest
  | O =>
      match boundary (String c rest) with
      | O => splitlines_from 0 (String.append cur (String c EmptyString)) rest
      | S k => cur :: splitlines_from k EmptyString rest
      end
  end.
Proof. reflexivity. Qed.

(** No line that [splitlines] returns holds a line feed, a carriage return
    or any other one-byte boundary. *)
Lemma splitlines_from_no_break s skip cur :
  has_break cur = false ->
  Forall (fun l => has_break l = false) (splitlines_from skip cur s).
Proof.
  revert skip cur. induction s as [|c s IH]; intros skip cur Hcur.
  - simpl. destruct cur; [apply Forall_nil_2|]. by apply Forall_cons.
  - rewrite splitlines_from_cons. destruct skip as [|k]; [|by apply IH].
    destruct (boundary (String c s)) as [|k] eqn:Hb.
    + apply IH. rewrite has_break_append, Hcur. simpl.
      by rewrite (boundary_is_break c s Hb).
    + apply Forall_cons. split; [done|]. by apply IH.
Qed.

Lemma indented_no_break s t : has_break s = false -> indented (String.append s t) = indented t.
Proof.
  induction s as [|c s IH]; [done|]. rewrite append_cons. simpl.
  intros H. apply orb_false_iff in H as [Hc Hs].
  destruct c as [[] [] [] [] [] [] [] []]; try done; by apply IH.
Qed.

Lemma indented_join l t :
  Forall (fun l => has_break l = false) l ->
  indented (String.append (join (String "010" " ") l) t) = indented t.
Proof.
  induction l as [|x [|y l] IH]; intros Hl.
  - done.
  - apply Forall_cons in Hl as [Hx _]. simpl. by apply indented_no_break.
  - apply Forall_cons in Hl as [Hx Hl].
    change (join (String "010" " ") (x :: y :: l))
      with (String.append x (String.append (String "010" " ") (join (String "010" " ") (y :: l)))).
    rewrite !append_assoc. rewrite indented_no_break by done.
    rewrite !append_cons, append_empty_l.
    change (indented (String.append (join (String "010" " ") (y :: l)) t) = indented t).
    by apply IH.
Qed.


Lemma boundary_printable c rest :
  (32 <= nat_of_ascii c < 127)%nat -> boundary (String c rest) = 0.
Proof.
  intros H. destruct c as [[] [] [] [] [] [] [] []]; vm_compute in H; try lia; reflexivity.
Qed.

Lemma printable_cons c s : printable (String c s) <-> (32 <= nat_of_ascii c < 127)%nat /\ printable s.
Proof. unfold printable. simpl. by rewrite Forall_cons. Qed.

Lemma splitlines_from_printable s cur :
  printable s ->
  splitlines_from 0 cur s =
    match String.append cur s with EmptyString => [] | line => [line] end /\
  splitlines_from 0 cur (String.append s (String "010" EmptyString)) = [String.append cur s].
Proof.
  revert cur. induction s as [|c s IH]; intros cur Hs.
  - rewrite append_empty_r. split; [by destruct cur|].
    rewrite append_empty_l, splitlines_from_cons. reflexivity.
  - apply printable_cons in Hs as [Hc Hs].
    rewrite append_cons, !splitlines_from_cons, !(boundary_printable c) by done.
    destruct (IH (String.append cur (String c EmptyString)) Hs) as [-> ->].
    by rewrite !append_assoc, !append_cons, !append_empty_l.
Qed.

(** X12.  The welcome handler prints nothing when the welcome has no
    [motd].  When it has one it prints one text, to the stream the handler
    was made with ([sys.stdout] if that is [None]): [Server (at URL) says:]
    and then the lines of the motd, each on a line of its own that starts
    with a space.  Whatever the motd, no line printed for it holds a line
    feed, carriage return or other one-byte line boundary, so in what
    follows the header every line feed but the closing one is followed by a
    space. *)
Theorem motd_printed_indented (self : WelcomeHandler) (welcome : gmap string string)
    (written : list (pyval * string)) :
  match welcome !! "motd" with
  | None => handle_welcome self welcome written = written
  | Some motd =>
      let body := String.append (String "010" " ")
                    (join (String "010" " ") (splitlines motd)) in
      handle_welcome self welcome written =
        written ++
        [(if is_not_None (stderr self) then stderr self else sys_stdout,
          String.append "Server (at "
            (String.append (relay_url self)
               (String.append ") says:" (String.append body (String "010" EmptyString)))))] /\
      Forall (fun line => has_break line = false) (splitlines motd) /\
      indented body = true
  end.
Proof.
  unfold handle_welcome. destruct (welcome !! "motd") as [motd|]; [|done].
  cbv zeta.
  assert (Forall (fun line => has_break line = false) (splitlines motd)) as Hl
    by (by apply splitlines_from_no_break).
  split_and!; [|done|].
  - unfold print. by rewrite !append_assoc.
  - rewrite !append_cons, append_empty_l. simpl.
    rewrite <- (append_empty_r (join _ _)). by rewrite indented_join.
Qed.

(** X13.  Edge cases of the motd.  An empty motd still prints the header,
    followed by one line that holds a single space.  A motd of printable
    ASCII on one line is printed as it is, after a space; a line feed that
    ends it changes nothing. *)
Theorem motd_edge_cases (self : WelcomeHandler) (motd : string)
    (written : list (pyval * string)) :
  printable motd -> motd <> EmptyString ->
  let to := if is_not_None (stderr self) then stderr self else sys_stdout in
  let header := String.append "Server (at " (String.append (relay_url self) ") says:") in
  handle_welcome self {["motd" := EmptyString]} written =
    written ++ [(to, String.append header (String "010" (String " " (String "010" EmptyString))))] /\
  handle_welcome self {["motd" := motd]} written =
    written ++ [(to, String.append header
                       (String "010" (String " " (String.append motd (String "010" EmptyString)))))] /\
  handle_welcome self {["motd" := String.append motd (String "010" EmptyString)]} written =
  handle_welcome self {["motd" := motd]} written.
Proof.
  intros Hp Hne. cbv zeta.
  destruct (splitlines_from_printable motd EmptyString Hp) as [H1 H2].
  rewrite !append_empty_l in *.
  assert (splitlines motd = [motd]) as Hm by (unfold splitlines; rewrite H1; by destruct motd).
  unfold handle_welcome. rewrite !lookup_singleton_eq. cbv zeta.
  unfold splitlines at 3. rewrite H2. rewrite Hm.
  unfold print. split_and!; try done.
  - by rewrite !append_assoc.
  - simpl join. by rewrite !append_assoc.
Qed.

Lemma motd_edge_cases_witness :
  handle_welcome (Welcome.__init__ "ws://relay") {["motd" := "Be excellent"]} [] =
  [(sys_stderr,
    String.append "Server (at ws://relay) says:"
      (String "010" (String.append " Be excellent" (String "010" EmptyString))))].
Proof.
  destruct (motd_edge_cases (Welcome.__init__ "ws://relay") "Be excellent" []) as (_ & H & _).
  - repeat constructor.
  - discriminate.
  - exact H.
Defined.

End WelcomeFacts.
(** X14.  The welcome handler [create] installs when the caller gives none
    (or gives one that Python takes for false) is a [_WelcomeHandler] made
    from the relay URL alone: what it prints names that URL and goes to
    [sys.stderr], whatever [stderr] was given to [create]. *)
Theorem default_welcome_prints_to_sys_stderr (entropy : nat -> byte)
    (appid relay_url : string) (reactor versions : pyval) (delegate : option Delegate)
    (journal tor_manager timing welcome_handler stderr : pyval)
    (welcome : gmap string string) (motd : string) (written : list (pyval * string)) :
  truthy welcome_handler = false ->
  welcome !! "motd" = Some motd ->
  exists b h text,
    boss_of (create entropy appid relay_url reactor versions delegate
               journal tor_manager timing welcome_handler stderr) = Some b /\
    Welcome.bound (boss_welcome_handler b) = Some h /\
    Welcome.relay_url h = relay_url /\
    Welcome.handle_welcome h welcome written =
      written ++ [(Welcome.sys_stderr,
                   String.append "Server (at " (String.append relay_url text))].
Proof.
  intros Hw Hm. unfold create. rewrite Hw. cbv zeta.
  eexists _, (Welcome.__init__ relay_url),
    (String.append ") says:"
       (String.append (String "010" " ")
          (String.append (Welcome.join (String "010" " ") (Welcome.splitlines motd))
             (String "010" EmptyString)))).
  split; [destruct delegate as [d|]; [destruct (delegate_bool d)|]; reflexivity|].
  simpl boss_welcome_handler.
  split; [reflexivity|]. split; [reflexivity|].
  unfold Welcome.handle_welcome, Welcome.print. rewrite Hm. cbv zeta. simpl is_not_None.
  cbv iota. simpl Welcome.relay_url. simpl Welcome.stderr.
  by rewrite !WelcomeFacts.append_assoc.
Qed.

Lemma default_welcome_prints_to_sys_stderr_witness :
  exists b h text,
    boss_of (create sample_entropy "appid" "ws://relay" PyNone (PyDict []) None
               PyNone PyNone PyNone PyNone (PyObj "my-stream" true)) = Some b /\
    Welcome.bound (boss_welcome_handler b) = Some h /\
    Welcome.relay_url h = "ws://relay" /\
    Welcome.handle_welcome h {["motd" := "hello"]} [] =
      [(Welcome.sys_stderr, String.append "Server (at " (String.append "ws://relay" text))].
Proof.
  apply (default_welcome_prints_to_sys_stderr sample_entropy "appid" "ws://relay" PyNone
           (PyDict []) None PyNone PyNone PyNone PyNone (PyObj "my-stream" true)
           {["motd" := "hello"]} "hello" []).
  - reflexivity.
  - apply lookup_singleton_eq.
Defined.
